(** * A shallow embedding of slixmpp's XML stream engine

    Source files:
      - slixmpp/xmlstream/xmlstream.py     (class XMLStream)
      - slixmpp/features/feature_starttls/stanza.py (class STARTTLS)

    Each Module below embeds one part of [XMLStream]: the incremental
    framer ([data_received]), the reconnect backoff bookkeeping, the
    outbound send worker ([_send_thread]), inbound stanza dispatch
    ([__spawn_event]) and the named scheduler ([schedule],
    [cancel_schedule], [_remove_schedules]). *)

From Stdlib Require Import ZArith QArith Lia Ascii.
From stdpp Require Import base list gmap strings.

(* ------------------------------------------------------------------ *)
(** ** Framer: [XMLStream.data_received] *)

Module Framer.

(** Events produced by [xml.etree.ElementTree.XMLPullParser(("start", "end"))]:
    the byte-level parsing is done by the standard library, so the
    framer is embedded over the sequence of events [read_events] yields
    for the bytes fed in one call. *)
Inductive parse_event (X : Type) :=
| EvStart (x : X)
| EvEnd (x : X).
Arguments EvStart {X} x.
Arguments EvEnd {X} x.

(** The outcome of [self.__spawn_event(xml)] as seen by [data_received]:
    it returns normally, raises [RestartStream] (caught, [return True]),
    or raises any other exception (not caught: it leaves [data_received]). *)
Inductive spawn_outcome := SpawnOk | SpawnRestart | SpawnRaise.

(** The attributes of [XMLStream] that [data_received] reads or writes.
    [stream_end_event] is the [threading.Event] as a flag;
    [reconnect_delay] is [None] until the first stream header. *)
Record fstate (X : Type) := mkF {
  xml_depth : Z;
  xml_root : option X;
  stream_end_event : bool;
  reconnect_delay : option Q
}.
Arguments mkF {X} _ _ _ _.
Arguments xml_depth {X} _.
Arguments xml_root {X} _.
Arguments stream_end_event {X} _.
Arguments reconnect_delay {X} _.

(** Observable effects of one call, in order. *)
Inductive effect (X : Type) :=
| StartStream (x : X)   (** [self.start_stream_handler(self.xml_root)] *)
| Spawn (x : X)         (** [self.__spawn_event(xml)] *)
| ClearRoot             (** [self.xml_root.clear()] *)
| StreamEnded.          (** [self.stream_end_event.set()] *)
Arguments StartStream {X} x.
Arguments Spawn {X} x.
Arguments ClearRoot {X}.
Arguments StreamEnded {X}.

(** How the call ends: falling off the loop ([None] in Python),
    [return False], [return True], or an exception escaping. *)
Inductive ret := RetNone | RetFalse | RetTrue | RetRaise.

Section DataReceived.
Context {X : Type}.
Variable spawn : X -> spawn_outcome.

Definition set_depth (d : Z) (s : fstate X) : fstate X :=
  mkF d (xml_root s) (stream_end_event s) (reconnect_delay s).

(** The [if event == 'start'] branch. *)
Definition on_start (x : X) (s : fstate X) : fstate X * list (effect X) :=
  if Z.eqb (xml_depth s) 0 then
    (* xml_root = xml; stream_end_event.clear(); start_stream_handler;
       reconnect_delay = 1.0; xml_depth += 1 *)
    (mkF (xml_depth s + 1) (Some x) false (Some 1%Q), [StartStream x])
  else (set_depth (xml_depth s + 1) s, []).

(** [for event, xml in self.parser.read_events(): ...] *)
Fixpoint data_received (evs : list (parse_event X)) (s : fstate X)
  : fstate X * list (effect X) * ret :=
  match evs with
  | [] => (s, [], RetNone)
  | EvStart x :: rest =>
      let '(s1, e1) := on_start x s in
      let '(s2, e2, r) := data_received rest s1 in
      (s2, e1 ++ e2, r)
  | EvEnd x :: rest =>
      let s1 := set_depth (xml_depth s - 1) s in
      if Z.eqb (xml_depth s1) 0 then
        (mkF 0 (xml_root s1) true (reconnect_delay s1), [StreamEnded], RetFalse)
      else if Z.eqb (xml_depth s1) 1 then
        match spawn x with
        | SpawnRestart => (s1, [Spawn x], RetTrue)
        | SpawnRaise => (s1, [Spawn x], RetRaise)
        | SpawnOk =>
            let e1 := match xml_root s1 with
                      | Some _ => [Spawn x; ClearRoot]
                      | None => [Spawn x]
                      end in
            let '(s2, e2, r) := data_received rest s1 in
            (s2, e1 ++ e2, r)
        end
      else data_received rest s1
  end.

End DataReceived.

(** The elements passed to [__spawn_event], in order. *)
Fixpoint spawned {X} (es : list (effect X)) : list X :=
  match es with
  | [] => []
  | Spawn x :: r => x :: spawned r
  | _ :: r => spawned r
  end.

(** Declarative view of the nesting depth: the initial depth plus the
    number of [start] events minus the number of [end] events. *)
Definition delta {X} (e : parse_event X) : Z :=
  match e with EvStart _ => 1 | EvEnd _ => -1 end.

Definition prefix_depth {X} (d0 : Z) (l : list (parse_event X)) : Z :=
  d0 + Z.of_nat (length (filter (fun e => delta e = 1%Z) l))
     - Z.of_nat (length (filter (fun e => delta e = (-1)%Z) l)).

(** The elements whose [end] event brings the depth to 1. *)
Definition closes_at_one {X} (d0 : Z) (l : list (parse_event X)) : list X :=
  omap (fun i => match l !! i with
                 | Some (EvEnd x) =>
                     if Z.eqb (prefix_depth d0 (take (S i) l)) 1 then Some x else None
                 | _ => None
                 end) (seq 0 (length l)).

End Framer.

(* ------------------------------------------------------------------ *)
(** ** [STARTTLS] stanza (feature_starttls/stanza.py) *)

Module Starttls.

(** A stanza object wraps an XML element; its content is irrelevant to
    [get_required], so the element type is a parameter. *)
Record STARTTLS (E : Type) := { xml : E }.

(** [def get_required(self): return True] *)
Definition get_required {E} (_ : STARTTLS E) : bool := true.

End Starttls.

(* ------------------------------------------------------------------ *)
(** ** Reconnect backoff bookkeeping *)

Module Backoff.
Import Framer.

(** The two attributes of [XMLStream] the backoff concerns:
    [reconnect_delay] (initially [None]) and the configured ceiling
    [reconnect_max_delay] (default [RECONNECT_MAX_DELAY = 600]). *)
Record bstate := mkB {
  b_reconnect_delay : option Q;
  reconnect_max_delay : Q
}.

Definition RECONNECT_MAX_DELAY : Q := 600.

(** [__init__]: [self.reconnect_delay = None],
    [self.reconnect_max_delay = RECONNECT_MAX_DELAY]. *)
Definition init_bstate : bstate := mkB None RECONNECT_MAX_DELAY.

(** What happens between two connection attempts. *)
Inductive conn_event :=
| StreamHeader   (** the peer's stream header: [data_received] sees the
                     root element's [start] event at depth 0 *)
| FailedAttempt. (** a failed attempt followed by [reconnect()] *)

(** [reconnect] is [log.debug(...); self.connect()], and [connect]
    writes [stop], [address], [default_domain], [use_ssl],
    [force_starttls] and [disable_starttls] before handing the
    connection coroutine to asyncio: nothing in the source reads or
    writes [reconnect_delay] on this path. *)
Definition reconnect (b : bstate) : bstate := b.

(** The stream header goes through [data_received] on a fresh parser
    ([init_parser] sets [xml_depth = 0]). *)
Definition on_header (b : bstate) : bstate :=
  let s0 := mkF (X:=unit) 0 None true (b_reconnect_delay b) in
  let '(s1, _, _) := data_received (fun _ => SpawnOk) [EvStart tt] s0 in
  mkB (reconnect_delay s1) (reconnect_max_delay b).

Definition conn_step (b : bstate) (e : conn_event) : bstate :=
  match e with
  | StreamHeader => on_header b
  | FailedAttempt => reconnect b
  end.

Definition run_conn (b : bstate) (es : list conn_event) : bstate :=
  fold_left conn_step es b.

End Backoff.

(* ------------------------------------------------------------------ *)
(** ** Custom events: [add_event_handler], [del_event_handler],
    [event_handled] and [event] *)

Module Events.

(** An entry [(pointer, threaded, disposable)] of
    [self.__event_handlers[name]]; functions are compared by identity, a
    number. *)
Record ehandler := mkEH {
  pointer : nat;
  threaded : bool;
  disposable : bool
}.

#[global] Instance ehandler_eq_dec : EqDecision ehandler.
Proof. solve_decision. Defined.

(** [self.__event_handlers]: a dict from event names to handler lists. *)
Abbreviation etable := (gmap string (list ehandler)) (only parsing).

(** [add_event_handler(name, pointer, threaded, disposable)] *)
Definition add_event_handler (name : string) (p : nat) (th disp : bool)
    (m : etable) : etable :=
  let hs := match m !! name with Some hs => hs | None => [] end in
  <[name := hs ++ [mkEH p th disp]]> m.

(** [del_event_handler(name, pointer)]: keep the entries whose pointer
    is not [pointer]; an unknown name is left alone. *)
Definition del_event_handler (name : string) (p : nat) (m : etable) : etable :=
  match m !! name with
  | None => m
  | Some hs => <[name := filter (fun h => pointer h <> p) hs]> m
  end.

(** [event_handled(name)]: [len(self.__event_handlers.get(name, []))]. *)
Definition event_handled (name : string) (m : etable) : nat :=
  match m !! name with Some hs => length hs | None => 0 end.

(** [list.index(x)]: the first position holding [x]. *)
Fixpoint index_of (h : ehandler) (hs : list ehandler) : option nat :=
  match hs with
  | [] => None
  | h' :: hs' => if decide (h = h') then Some 0 else S <$> index_of h hs'
  end.

(** The [for handler in handlers:] loop of [event]. Python iterates the
    list by position, and [handlers] is the very list object stored in
    [self.__event_handlers[name]], so a [pop] inside the loop shifts the
    elements the iterator has not reached yet. Every handler run is
    recorded by its pointer (a failing handler is caught and reported,
    and the loop goes on). After a disposable handler runs, the loop
    enters [with self.__event_handlers_lock:]; [has_lock] tells whether
    that attribute exists: when it does not, the [with] raises
    [AttributeError] and the loop stops. The handlers themselves are
    taken not to change the handler table. [fuel] bounds the iterations:
    the list never grows, so its length is enough. *)
Fixpoint ev_loop (has_lock : bool) (fuel i : nat) (hs : list ehandler) (ran : list nat)
  : list ehandler * list nat * bool :=
  match fuel with
  | 0 => (hs, ran, false)
  | S f =>
      match hs !! i with
      | None => (hs, ran, false)
      | Some h =>
          let ran' := ran ++ [pointer h] in
          if disposable h then
            if has_lock then
              let hs' := match index_of h hs with
                         | Some k => delete k hs
                         | None => hs
                         end in
              ev_loop has_lock f (S i) hs' ran'
            else (hs, ran', true)
          else ev_loop has_lock f (S i) hs ran'
      end
  end.

(** [event(name, data, direct)]: the new table, the pointers run in
    order, and whether [AttributeError] escaped. An unknown name runs
    nothing ([get(name, [])] gives a fresh empty list). *)
Definition event (has_lock : bool) (name : string) (m : etable)
  : etable * list nat * bool :=
  match m !! name with
  | None => (m, [], false)
  | Some hs =>
      let '(hs', ran, err) := ev_loop has_lock (length hs) 0 hs [] in
      (<[name := hs']> m, ran, err)
  end.

(** [XMLStream] never assigns [self.__event_handlers_lock] (its mangled
    name [_XMLStream__event_handlers_lock]): [__init__] creates
    [_id_lock] and [__thread_cond] but no such lock. *)
Definition xmlstream_has_lock : bool := false.

End Events.

(* ------------------------------------------------------------------ *)
(** ** Outbound send worker: [XMLStream._send_thread] *)

Module SendWorker.

(** Exceptions [socket.send] can raise. The module runs on Python 3
    (it calls [asyncio.async], Python 3.4 to 3.6), where [socket.error]
    is [OSError] and [ssl.SSLError] is a subclass of [OSError]. *)
Inductive exn :=
| SocketError (errno : Z)   (** an [OSError] that is not an SSL error *)
| SSLError (errno : Z)      (** [ssl.SSLError] *)
| AttributeError           (** [AttributeError] *)
| OtherError.               (** any other [Exception] *)

(** [isinstance(e, Socket.error)] *)
Definition is_socket_error (e : exn) : bool :=
  match e with SocketError _ | SSLError _ => true | AttributeError | OtherError => false end.

(** [isinstance(e, ssl.SSLError)] *)
Definition is_ssl_error (e : exn) : bool :=
  match e with SSLError _ => true | _ => false end.

Definition exn_errno (e : exn) : option Z :=
  match e with SocketError n | SSLError n => Some n | AttributeError | OtherError => None end.

(** [errno.EINTR] on Linux. *)
Definition EINTR : Z := 4.

(** One call of [self.socket.send(...)]: bytes written, or an exception. *)
Inductive send_result := SendOk (n : nat) | SendErr (e : exn).

(** Where the worker is in [_send_thread]. *)
Inductive pc :=
| Outer                      (** [while not self.stop.is_set():] *)
| Gate                       (** the wait for [session_started_event] *)
| Take                       (** [if self.__failed_send_stanza is not None: ...] *)
| Send (data : string) (sent count tries : nat)  (** the write loop *)
| Done.                      (** the thread has returned *)

Inductive weffect :=
| Wait                       (** [session_started_event.wait(timeout=0.1)] *)
| Wrote (n : nat)            (** a successful [socket.send] *)
| Sleep (d : Q)              (** [time.sleep(self.ssl_retry_delay)] *)
| ExceptionHook (e : exn)    (** [self.exception(e)] *)
| SocketErrorEvent (e : exn) (** [self.event('socket_error', serr, direct=True)] *)
| Disconnect (reconnect send_close : bool)  (** [self.disconnect(...)] *)
| EndThread                  (** [self._end_thread('send')] *)
| TaskDone.                  (** [self.send_queue.task_done()] *)

Record wstate := mkW {
  w_pc : pc;
  stop : bool;                          (** [self.stop] *)
  session_started : bool;               (** [self.session_started_event] *)
  failed_send_stanza : option string;   (** [self.__failed_send_stanza] *)
  send_queue : list (option string);    (** [self.send_queue] *)
  sock : list send_result;              (** what the next [socket.send] calls return *)
  wlog : list weffect
}.

Definition goto (p : pc) (w : wstate) : wstate :=
  mkW p (stop w) (session_started w) (failed_send_stanza w)
      (send_queue w) (sock w) (wlog w).
Definition emit (es : list weffect) (w : wstate) : wstate :=
  mkW (w_pc w) (stop w) (session_started w) (failed_send_stanza w)
      (send_queue w) (sock w) (wlog w ++ es).
Definition set_failed (f : option string) (w : wstate) : wstate :=
  mkW (w_pc w) (stop w) (session_started w) f (send_queue w) (sock w) (wlog w).
Definition set_queue (q : list (option string)) (w : wstate) : wstate :=
  mkW (w_pc w) (stop w) (session_started w) (failed_send_stanza w) q (sock w) (wlog w).
Definition set_sock (r : list send_result) (w : wstate) : wstate :=
  mkW (w_pc w) (stop w) (session_started w) (failed_send_stanza w)
      (send_queue w) r (wlog w).

Section Worker.
(** [data.encode('utf-8')] *)
Variable encode : string -> list Byte.byte.
Variable ssl_retry_max : nat.
Variable ssl_retry_delay : Q.
Variable auto_reconnect : bool.

(** [self.__event_handlers], read by [self.event('socket_error', ...)].
    [event] leaves it as it was (see [Events.event]: it only pops a
    disposable handler with the lock, which [XMLStream] lacks). *)
Variable ev_handlers : Events.etable.

(** [except Exception as ex:] around the whole loop. *)
Definition generic_handler (e : exn) (w : wstate) : wstate :=
  let w1 := emit [ExceptionHook e] w in
  if negb (stop w1) then goto Done (emit [EndThread; Disconnect auto_reconnect true] w1)
  else goto Done (emit [EndThread] w1).

(** [except (Socket.error, ssl.SSLError) as serr:] around the write loop.
    When [self.event('socket_error', serr, direct=True)] raises
    ([AttributeError], see [Events.event]), the rest of this clause is
    skipped and the exception reaches [except Exception as ex:]. *)
Definition socket_error_handler (data : string) (e : exn) (w : wstate) : wstate :=
  let w1 := emit [SocketErrorEvent e] w in
  if (Events.event Events.xmlstream_has_lock "socket_error" ev_handlers).2 then
    generic_handler AttributeError w1
  else if negb (stop w1) then
    goto Done (emit [EndThread; Disconnect auto_reconnect false]
                    (set_failed (Some data) w1))
  else goto Outer w1.

(** [except ssl.SSLError as serr:] inside the write loop. *)
Definition ssl_retry_branch (data : string) (sent count tries : nat) (e : exn)
    (w : wstate) : wstate :=
  let w1 := if Nat.leb ssl_retry_max tries then
              emit (ExceptionHook e ::
                    if negb (stop w) then [Disconnect auto_reconnect false] else []) w
            else w in
  let w2 := if negb (stop w1) then emit [Sleep ssl_retry_delay] w1 else w1 in
  goto (Send data sent count (S tries)) w2.

(** One step of the worker thread; [None] when it has returned or is
    blocked ([send_queue.get()] on an empty queue, or a [socket.send]
    with no result yet). *)
Definition worker_step (w : wstate) : option wstate :=
  match w_pc w with
  | Outer =>
      if stop w then Some (goto Done (emit [EndThread] w)) else Some (goto Gate w)
  | Gate =>
      if negb (stop w) && negb (session_started w) then Some (emit [Wait] w)
      else Some (goto Take w)
  | Take =>
      match failed_send_stanza w with
      | Some d => Some (goto (Send d 0 0 0) (set_failed None w))
      | None =>
          match send_queue w with
          | [] => None
          | None :: q => Some (goto Outer (set_queue q w))
          | Some d :: q => Some (goto (Send d 0 0 0) (set_queue q w))
          end
      end
  | Send d sent count tries =>
      if Nat.ltb sent (length (encode d)) && negb (stop w) && session_started w then
        match sock w with
        | [] => None
        | SendOk n :: rest =>
            Some (goto (Send d (sent + n) (S count) tries) (emit [Wrote n] (set_sock rest w)))
        | SendErr e :: rest =>
            let w1 := set_sock rest w in
            if is_socket_error e then
              if bool_decide (exn_errno e = Some EINTR) then Some w1
              else Some (socket_error_handler d e w1)   (* raise *)
            else if is_ssl_error e then Some (ssl_retry_branch d sent count tries e w1)
            else Some (generic_handler e w1)
        end
      else Some (goto Outer (emit [TaskDone] w))
  | Done => None
  end.

Fixpoint run_worker (fuel : nat) (w : wstate) : wstate :=
  match fuel with
  | O => w
  | S k => match worker_step w with Some w' => run_worker k w' | None => w end
  end.

End Worker.

End SendWorker.

(* ------------------------------------------------------------------ *)
(** ** Inbound dispatch: [XMLStream.__spawn_event] and the handler list *)

Module Dispatch.

(** A handler object ([slixmpp.xmlstream.handler]): its name, its
    matcher, the callback [run] applies to the stanza object it is given
    (a mutation of that object), and the [once] flag. Handler objects are
    referred to by their identity, a [nat]. *)
Record handler_obj (S : Type) := mkH {
  hname : string;
  hmatch : S -> bool;
  hrun : S -> S;
  once : bool
}.
Arguments hname {S} _.
Arguments hmatch {S} _.
Arguments hrun {S} _.
Arguments once {S} _.

Inductive deffect (S : Type) :=
| MatchEval (i : nat)             (** [h.match(stanza)] evaluated for handler [i] *)
| Fire (i : nat) (loc : nat) (seen : S)
    (** [run_event(('stanza', handler, stanza_copy))]: handler [i] runs on
        the object [loc], whose content is [seen] when the run starts *)
| Unhandled (loc : nat).          (** [stanza.unhandled()] *)
Arguments MatchEval {S} i.
Arguments Fire {S} i loc seen.
Arguments Unhandled {S} loc.

(** [handlers] is [self.__handlers] (handler identities, in order);
    [bound] the handlers whose [stream] attribute is set;
    [destroyed] the handlers whose [_destroy] flag is set;
    [heap] the stanza objects, with [next_obj] the next fresh identity. *)
Record dstate (S : Type) := mkD {
  handlers : list nat;
  bound : gset nat;
  destroyed : gset nat;
  heap : gmap nat S;
  next_obj : nat;
  dlog : list (deffect S)
}.
Arguments mkD {S} _ _ _ _ _ _.
Arguments handlers {S} _.
Arguments bound {S} _.
Arguments destroyed {S} _.
Arguments heap {S} _.
Arguments next_obj {S} _.
Arguments dlog {S} _.

Section Dispatch.
Context {XML Stz : Type} `{Inhabited Stz}.
(** The handler objects, by identity. *)
Variable hobj : nat -> handler_obj Stz.
(** [self.incoming_filter] (identity unless overridden). *)
Variable incoming_filter : XML -> XML.
(** [self._build_stanza(xml)]. *)
Variable build_stanza : XML -> Stz.
(** [self.__filters['in']]: each returns a stanza or [None]. *)
Variable filters_in : list (Stz -> option Stz).

Definition set_handlers (hs : list nat) (st : dstate Stz) : dstate Stz :=
  mkD hs (bound st) (destroyed st) (heap st) (next_obj st) (dlog st).
Definition log_d (es : list (deffect Stz)) (st : dstate Stz) : dstate Stz :=
  mkD (handlers st) (bound st) (destroyed st) (heap st) (next_obj st) (dlog st ++ es).
Definition write (loc : nat) (v : Stz) (st : dstate Stz) : dstate Stz :=
  mkD (handlers st) (bound st) (destroyed st) (<[loc := v]> (heap st)) (next_obj st) (dlog st).

(** Modelled from the spec: [copy.copy(stanza)] calls
    [StanzaBase.__copy__] (slixmpp/xmlstream/stanzabase.py, not in the
    sources), taken to give a new object independent of the original.
    [alloc v] is a new object holding [v], made by [StanzaBase(...)] or
    by [copy.copy(...)]. *)
Definition alloc (v : Stz) (st : dstate Stz) : nat * dstate Stz :=
  (next_obj st,
   mkD (handlers st) (bound st) (destroyed st) (<[next_obj st := v]> (heap st))
       (next_obj st + 1) (dlog st)).

(** Modelled from the spec: [BaseHandler.prerun] and
    [BaseHandler.check_delete] (slixmpp/xmlstream/handler/base.py, not in
    the sources): a handler with [once] is marked for deletion when it
    is prepared to run, and [check_delete] reports that mark. *)
Definition prerun (i : nat) (st : dstate Stz) : dstate Stz :=
  if once (hobj i) then
    mkD (handlers st) (bound st) ({[i]} ∪ destroyed st) (heap st) (next_obj st) (dlog st)
  else st.
Definition check_delete (i : nat) (st : dstate Stz) : bool :=
  bool_decide (i ∈ destroyed st).

(** [list.remove(x)]: drop the first occurrence, if any. *)
Fixpoint remove_first (i : nat) (l : list nat) : list nat :=
  match l with
  | [] => []
  | j :: l' => if Nat.eqb i j then l' else j :: remove_first i l'
  end.

(** [for filter in self.__filters['in']: if stanza is not None:
    stanza = filter(stanza)] *)
Fixpoint apply_filters (fs : list (Stz -> option Stz)) (o : option Stz) : option Stz :=
  match fs with
  | [] => o
  | f :: fs' => apply_filters fs' (match o with Some s => f s | None => None end)
  end.

(** The body of [for handler in matched_handlers:]; [multi] is
    [len(matched_handlers) > 1] and [l0] the stanza object. *)
Fixpoint fire_all (multi : bool) (l0 : nat) (ms : list nat) (st : dstate Stz)
  : dstate Stz :=
  match ms with
  | [] => st
  | i :: ms' =>
      let '(loc, st1) := if multi then alloc (heap st !!! l0) st else (l0, st) in
      let st2 := prerun i st1 in
      (* run_event: orig = copy.copy(args[0]); handler.run(args[0]) *)
      let '(_, st3) := alloc (heap st2 !!! loc) st2 in
      let seen := heap st3 !!! loc in
      let st4 := write loc (hrun (hobj i) seen) (log_d [Fire i loc seen] st3) in
      let st5 := if check_delete i st4
                 then set_handlers (remove_first i (handlers st4)) st4 else st4 in
      fire_all multi l0 ms' st5
  end.

Definition spawn_event (xml : XML) (st : dstate Stz) : dstate Stz :=
  let x := incoming_filter xml in
  let '(l0, st1) := alloc (build_stanza x) st in
  match apply_filters filters_in (Some (build_stanza x)) with
  | None => st1
  | Some v =>
      let st2 := write l0 v st1 in
      let matched := filter (fun i => hmatch (hobj i) v = true) (handlers st2) in
      let st3 := log_d (map MatchEval (handlers st2)) st2 in
      let st4 := fire_all (Nat.ltb 1 (length matched)) l0 matched st3 in
      if bool_decide (matched = []) then log_d [Unhandled l0] st4 else st4
  end.

(** [register_handler]: [if handler.stream is None: append; bind]. *)
Definition register_handler (i : nat) (st : dstate Stz) : dstate Stz :=
  if bool_decide (i ∈ bound st) then st
  else mkD (handlers st ++ [i]) ({[i]} ∪ bound st) (destroyed st) (heap st)
           (next_obj st) (dlog st).

(** [remove_handler(name)]: pop the first handler with that name. *)
Fixpoint remove_by_name (n : string) (l : list nat) : list nat :=
  match l with
  | [] => []
  | j :: l' => if String.eqb (hname (hobj j)) n then l' else j :: remove_by_name n l'
  end.

Definition remove_handler (n : string) (st : dstate Stz) : dstate Stz :=
  set_handlers (remove_by_name n (handlers st)) st.

Inductive dop := RegisterOp (i : nat) | RemoveOp (n : string) | DispatchOp (xml : XML).

Definition dop_step (st : dstate Stz) (o : dop) : dstate Stz :=
  match o with
  | RegisterOp i => register_handler i st
  | RemoveOp n => remove_handler n st
  | DispatchOp x => spawn_event x st
  end.

Definition run_dops (st : dstate Stz) (os : list dop) : dstate Stz := fold_left dop_step os st.

Definition init_dstate : dstate Stz := mkD [] ∅ ∅ ∅ 0 [].

End Dispatch.
End Dispatch.

(* ------------------------------------------------------------------ *)
(** ** The named scheduler: [schedule], [cancel_schedule] and the
    asyncio timers behind them *)

Module Scheduler.

(** An asyncio [TimerHandle] made by [loop.call_later]: its identity,
    when it is due, and what it runs. [trepeat = None] is
    [_execute_and_unschedule(name, cb)]; [trepeat = Some seconds] is
    [_execute_and_reschedule(name, cb, seconds)]. Callbacks are named by
    a number. [cancelled] is set by [handle.cancel()]. *)
Record timer := mkT {
  tid : nat;
  deadline : Q;
  tname : string;
  tcb : nat;
  trepeat : option Q;
  cancelled : bool
}.

(** The event loop's clock and pending handles, the next handle
    identity, [self.scheduled_events] (a dict from names to handles),
    the callbacks run so far, and the [KeyError]s raised by callbacks
    (asyncio logs them and goes on). *)
Record sched := mkS {
  now : Q;
  pending : list timer;
  next_tid : nat;
  scheduled_events : gmap string nat;
  fired : list nat;
  key_errors : list string
}.

Definition init_sched : sched := mkS 0 [] 0 ∅ [] [].

(** [loop.call_later(seconds, ...)]: a new pending handle. *)
Definition call_later (seconds : Q) (name : string) (cb : nat) (rep : option Q)
    (st : sched) : nat * sched :=
  (next_tid st,
   mkS (now st)
       (pending st ++ [mkT (next_tid st) (now st + seconds) name cb rep false])
       (next_tid st + 1) (scheduled_events st) (fired st) (key_errors st)).

(** [schedule(name, seconds, callback, repeat)]: a new handle, stored
    under [name] by [self.scheduled_events[name] = handle]. *)
Definition schedule (name : string) (seconds : Q) (cb : nat) (repeat : bool)
    (st : sched) : sched :=
  let '(h, st1) := call_later seconds name cb (if repeat then Some seconds else None) st in
  mkS (now st1) (pending st1) (next_tid st1)
      (<[name := h]> (scheduled_events st1)) (fired st1) (key_errors st1).

(** [handle.cancel()]. *)
Definition cancel_handle (h : nat) (ts : list timer) : list timer :=
  map (fun t => if Nat.eqb (tid t) h
                then mkT (tid t) (deadline t) (tname t) (tcb t) (trepeat t) true
                else t) ts.

(** [cancel_schedule(name)]: pop the handle and cancel it; a missing
    name is only logged. *)
Definition cancel_schedule (name : string) (st : sched) : sched :=
  match scheduled_events st !! name with
  | Some h => mkS (now st) (cancel_handle h (pending st)) (next_tid st)
                  (delete name (scheduled_events st)) (fired st) (key_errors st)
  | None => st
  end.

(** Running a due handle [t] (already taken off the loop). *)
Definition run_timer (t : timer) (st : sched) : sched :=
  let st1 := mkS (now st) (pending st) (next_tid st) (scheduled_events st)
                 (fired st ++ [tcb t]) (key_errors st) in
  match trepeat t with
  | None =>
      (* _execute_and_unschedule: cb(); del self.scheduled_events[name] *)
      match scheduled_events st1 !! tname t with
      | Some _ => mkS (now st1) (pending st1) (next_tid st1)
                      (delete (tname t) (scheduled_events st1)) (fired st1) (key_errors st1)
      | None => mkS (now st1) (pending st1) (next_tid st1)
                    (scheduled_events st1) (fired st1) (key_errors st1 ++ [tname t])
      end
  | Some secs =>
      (* _execute_and_reschedule: cb(); call_later again; store the handle *)
      let '(h, st2) := call_later secs (tname t) (tcb t) (Some secs) st1 in
      mkS (now st2) (pending st2) (next_tid st2)
          (<[tname t := h]> (scheduled_events st2)) (fired st2) (key_errors st2)
  end.

(** The earliest live handle (the first one among equal deadlines). *)
Fixpoint earliest (ts : list timer) : option timer :=
  match ts with
  | [] => None
  | t :: ts' =>
      let r := earliest ts' in
      if cancelled t then r
      else match r with
           | Some u => if Qle_bool (deadline t) (deadline u) then Some t else Some u
           | None => Some t
           end
  end.

(** One turn of the event loop: advance the clock to the earliest live
    handle and run it; cancelled handles are never run. *)
Definition loop_step (st : sched) : sched :=
  match earliest (pending st) with
  | None => st
  | Some t =>
      run_timer t (mkS (deadline t)
                       (filter (fun u => tid u <> tid t) (pending st))
                       (next_tid st) (scheduled_events st) (fired st) (key_errors st))
  end.

Fixpoint run_loop (n : nat) (st : sched) : sched :=
  match n with
  | 0 => st
  | S n' => run_loop n' (loop_step st)
  end.






End Scheduler.

(* ------------------------------------------------------------------ *)
(** ** Stanza filters: [add_filter] and [del_filter] *)

Module Filters.

(** The exceptions these methods can raise. *)
Inductive pyerr := KeyError | ValueError.

(** [self.__filters]: mode to the list of filter functions (by identity),
    created by [__init__] with the modes ['in'], ['out'] and
    ['out_sync']. *)
Abbreviation ftable := (gmap string (list nat)) (only parsing).

Definition init_filters : ftable :=
  <["in" := []]> (<["out" := []]> (<["out_sync" := []]> ∅)).

(** [list.insert(i, x)]: a negative index counts from the end; the index
    is clamped to [0, len(l)]. *)
Definition py_insert (i : Z) (x : nat) (l : list nat) : list nat :=
  let n := Z.of_nat (length l) in
  let j := if Z.ltb i 0 then Z.max 0 (n + i) else Z.min i n in
  take (Z.to_nat j) l ++ x :: drop (Z.to_nat j) l.

(** [list.remove(x)]: drop the first occurrence, [ValueError] if none. *)
Fixpoint py_remove (x : nat) (l : list nat) : option (list nat) :=
  match l with
  | [] => None
  | y :: l' => if Nat.eqb x y then Some l' else cons y <$> py_remove x l'
  end.

(** [add_filter(mode, handler, order)]: [if order:] inserts at [order],
    otherwise ([None] or [0]) appends. *)
Definition add_filter (mode : string) (h : nat) (order : option Z) (m : ftable)
  : ftable + pyerr :=
  match m !! mode with
  | None => inr KeyError
  | Some l =>
      match order with
      | Some o => if Z.eqb o 0 then inl (<[mode := l ++ [h]]> m)
                  else inl (<[mode := py_insert o h l]> m)
      | None => inl (<[mode := l ++ [h]]> m)
      end
  end.

(** [del_filter(mode, handler)]: [self.__filters[mode].remove(handler)]. *)
Definition del_filter (mode : string) (h : nat) (m : ftable) : ftable + pyerr :=
  match m !! mode with
  | None => inr KeyError
  | Some l =>
      match py_remove h l with
      | Some l' => inl (<[mode := l']> m)
      | None => inr ValueError
      end
  end.

End Filters.

(* ------------------------------------------------------------------ *)
(** ** Stream ids: [new_id] and [get_id] *)

Module Ids.

(** Upper-case hexadecimal digits, as ["%X"] writes them. *)
Definition hex_digit (d : nat) : ascii :=
  match String.get d "0123456789ABCDEF" with Some c => c | None => "0"%char end.

(** ["%X" % n]: no leading zeros, ["0"] for zero. [fuel] bounds the
    number of divisions; [n + 1] is enough. *)
Fixpoint hex_aux (fuel n : nat) : list ascii :=
  match fuel with
  | 0 => []
  | S f => if Nat.ltb n 16 then [hex_digit n]
           else hex_aux f (n / 16) ++ [hex_digit (n mod 16)]
  end.

Definition hex (n : nat) : string := String.string_of_list_ascii (hex_aux (S n) n).

(** [self._id_prefix] (['<uuid4>-'], fixed by [__init__]) and
    [self._id] (initially [0]). *)
Record idstate := mkId { id_prefix : string; id_count : nat }.

(** [get_id()]: ["%s%X" % (self._id_prefix, self._id)]. *)
Definition get_id (st : idstate) : string := id_prefix st +:+ hex (id_count st).

(** [new_id()]: [self._id += 1; return self.get_id()]. *)
Definition new_id (st : idstate) : string * idstate :=
  let st' := mkId (id_prefix st) (S (id_count st)) in (get_id st', st').

(** [k] successive calls of [new_id()]. *)
Fixpoint new_ids (k : nat) (st : idstate) : list string * idstate :=
  match k with
  | 0 => ([], st)
  | S k' => let '(x, st1) := new_id st in
            let '(xs, st2) := new_ids k' st1 in (x :: xs, st2)
  end.

End Ids.

(* ------------------------------------------------------------------ *)
(** ** Thread bookkeeping: [_start_thread] and [_end_thread] *)

Module Threads.

(** [self.__thread] (its names), [self.__thread_count],
    [self.__active_threads], and how many times
    [self.__thread_cond.notify()] ran. *)
Record tstate := mkT {
  threads : gset string;
  thread_count : Z;
  active_threads : gset string;
  notifies : nat
}.

(** [_start_thread(name, target, track)]. *)
Definition start_thread (name : string) (track : bool) (st : tstate) : tstate :=
  let th := {[name]} ∪ threads st in
  if track then mkT th (thread_count st + 1) ({[name]} ∪ active_threads st) (notifies st)
  else mkT th (thread_count st) (active_threads st) (notifies st).

(** [_end_thread(name, early)], run by the thread named [cur]
    ([threading.current_thread().name]); [name] and [early] only change
    what is logged. *)
Definition end_thread (cur : string) (st : tstate) : tstate :=
  let st1 := if bool_decide (cur ∈ active_threads st)
             then mkT (threads st) (thread_count st - 1)
                      (active_threads st ∖ {[cur]}) (notifies st)
             else st in
  if Z.eqb (thread_count st1) 0
  then mkT (threads st1) (thread_count st1) (active_threads st1) (S (notifies st1))
  else st1.

End Threads.

(* ------------------------------------------------------------------ *)
(** ** [connect] and [reconnect] *)

Module Connect.

(** The attributes [connect] reads or writes, and the connections it
    asks asyncio for ([host], [port], [ssl]). [force_starttls] and
    [disable_starttls] start as [None]. *)
Record cstate := mkC {
  c_stop : bool;
  address : string * Z;
  default_domain : string;
  use_ssl : bool;
  force_starttls : option bool;
  disable_starttls : option bool;
  connections : list (string * Z * bool)
}.

Section Connect.
(** Whether [socket.inet_aton] accepts the host (an IPv4 literal). *)
Variable inet_aton_ok : string -> bool.

(** [connect(host, port, use_ssl, force_starttls, disable_starttls)];
    [None] is Python's [None]. *)
Definition connect (host : string) (port : Z) (use_ssl' : option bool)
    (force_starttls' disable_starttls' : option bool) (st : cstate) : cstate :=
  let addr := if negb (String.eqb host "") && negb (Z.eqb port 0)
              then (host, port) else address st in
  let dd := if inet_aton_ok addr.1 then default_domain st else addr.1 in
  let ssl := match use_ssl' with Some b => b | None => use_ssl st end in
  let fs := match force_starttls' with Some b => Some b | None => force_starttls st end in
  let ds := match disable_starttls' with Some b => Some b | None => disable_starttls st end in
  mkC false addr dd ssl fs ds (connections st ++ [(addr.1, addr.2, ssl)]).

(** [connect()] with its defaults: [host=''], [port=0], [use_ssl=False],
    [force_starttls=True], [disable_starttls=False]. *)
Definition connect_defaults (st : cstate) : cstate :=
  connect "" 0 (Some false) (Some true) (Some false) st.

(** [reconnect()]: [log.debug(...); self.connect()]. *)
Definition reconnect (st : cstate) : cstate := connect_defaults st.

End Connect.

End Connect.

(* ================================================================== *)
(** * Properties *)

(* ------------------------------------------------------------------ *)
(** ** Framer *)

Module FramerFacts.
Import Framer.

Section Facts.
Context {X : Type}.
Variable spawn : X -> spawn_outcome.

(** No [end] event of [l] stops the loop: none brings the depth to 0,
    and none that brings it to 1 makes [__spawn_event] raise. *)
Definition no_stop (d0 : Z) (l : list (parse_event X)) : Prop :=
  forall i x, l !! i = Some (EvEnd x) ->
    prefix_depth d0 (take (S i) l) <> 0%Z /\
    (prefix_depth d0 (take (S i) l) = 1%Z -> spawn x = SpawnOk).

Lemma spawned_app (e1 e2 : list (effect X)) :
  spawned (e1 ++ e2) = spawned e1 ++ spawned e2.
Proof. induction e1 as [|[] e1 IH]; simpl; rewrite ?IH; reflexivity. Qed.

Lemma prefix_depth_nil d0 : prefix_depth (X:=X) d0 [] = d0.
Proof. unfold prefix_depth; simpl; lia. Qed.

Lemma prefix_depth_cons d0 (e : parse_event X) l :
  prefix_depth d0 (e :: l) = prefix_depth (d0 + delta e) l.
Proof.
  unfold prefix_depth; rewrite !filter_cons.
  destruct e; simpl; repeat case_decide; simpl in *; try discriminate; lia.
Qed.

Lemma omap_shift {B} (f g : nat -> option B) (l : list nat) :
  (forall i, f (S i) = g i) -> omap f (map S l) = omap g l.
Proof.
  intros Hfg; induction l as [|i l IH]; simpl; [reflexivity|].
  rewrite Hfg; destruct (g i); [f_equal|]; exact IH.
Qed.

Lemma closes_at_one_cons d0 (e : parse_event X) l :
  closes_at_one d0 (e :: l) =
    match e with
    | EvEnd x => if Z.eqb (d0 - 1) 1 then [x] else []
    | EvStart _ => []
    end ++ closes_at_one (d0 + delta e) l.
Proof.
  unfold closes_at_one at 1. simpl length.
  rewrite <- cons_seq, <- seq_shift. simpl omap.
  rewrite (omap_shift _ (fun i => match l !! i with
                 | Some (EvEnd x) =>
                     if Z.eqb (prefix_depth (d0 + delta e) (take (S i) l)) 1
                     then Some x else None
                 | _ => None end)).
  - destruct e as [x|x]; simpl; [reflexivity|].
    rewrite prefix_depth_cons, prefix_depth_nil. simpl.
    replace (d0 + -1)%Z with (d0 - 1)%Z by lia.
    destruct (Z.eqb (d0 - 1) 1); reflexivity.
  - intros i. simpl. rewrite prefix_depth_cons. reflexivity.
Qed.

Lemma no_stop_cons d0 (e : parse_event X) l :
  no_stop d0 (e :: l) ->
  match e with
  | EvEnd x => (d0 - 1)%Z <> 0%Z /\ ((d0 - 1)%Z = 1%Z -> spawn x = SpawnOk)
  | EvStart _ => True
  end /\ no_stop (d0 + delta e) l.
Proof.
  intros H. split.
  - destruct e as [x|x]; [exact I|].
    destruct (H 0 x eq_refl) as [H1 H2].
    simpl in H1, H2. rewrite prefix_depth_cons, prefix_depth_nil in H1, H2.
    simpl in H1, H2. split; intros; [apply H1|apply H2]; lia.
  - intros i x Hi. destruct (H (S i) x Hi) as [H1 H2].
    simpl in H1, H2. rewrite prefix_depth_cons in H1, H2. auto.
Qed.

Lemma on_start_depth x (s : fstate X) :
  xml_depth (fst (on_start x s)) = (xml_depth s + 1)%Z /\
  spawned (snd (on_start x s)) = [].
Proof. unfold on_start; destruct (Z.eqb _ 0); simpl; auto. Qed.

(** Without a stopping [end], the loop runs to the end of the events. *)
Lemma data_received_no_stop evs (s : fstate X) :
  no_stop (xml_depth s) evs ->
  exists s' es, data_received spawn evs s = (s', es, RetNone) /\
    xml_depth s' = prefix_depth (xml_depth s) evs /\
    spawned es = closes_at_one (xml_depth s) evs.
Proof.
  revert s; induction evs as [|e evs IH]; intros s H.
  - exists s, []. rewrite prefix_depth_nil. split; [reflexivity|]. auto.
  - destruct (no_stop_cons _ _ _ H) as [He Hl].
    rewrite prefix_depth_cons, closes_at_one_cons.
    destruct e as [x|x]; cbn [delta] in Hl |- *; simpl.
    + destruct (on_start_depth x s) as [Hd Hsp].
      destruct (on_start x s) as [s1 e1] eqn:E. simpl in Hd, Hsp.
      rewrite <- Hd in Hl |- *.
      destruct (IH s1 Hl) as (s' & es & Hrun & Hd' & Hs').
      rewrite Hrun. exists s', (e1 ++ es). split; [reflexivity|].
      split; [exact Hd'|]. rewrite spawned_app, Hsp, Hs'. reflexivity.
    + destruct He as [Hne Hone].
      replace (xml_depth s + -1)%Z with (xml_depth s - 1)%Z in Hl |- * by lia.
      destruct (Z.eqb_spec (xml_depth s - 1) 0) as [E0|_]; [contradiction|].
      destruct (Z.eqb_spec (xml_depth s - 1) 1) as [E1|E1].
      * rewrite (Hone E1).
        destruct (IH (set_depth (xml_depth s - 1) s) Hl)
          as (s' & es & Hrun & Hd' & Hs').
        simpl in Hrun. rewrite Hrun.
        exists s', (match xml_root s with
                    | Some _ => [Spawn x; ClearRoot] | None => [Spawn x] end ++ es).
        split; [reflexivity|]. split; [exact Hd'|].
        rewrite spawned_app, Hs'. destruct (xml_root s); reflexivity.
      * destruct (IH (set_depth (xml_depth s - 1) s) Hl)
          as (s' & es & Hrun & Hd' & Hs').
        exists s', es. auto.
Qed.

Lemma prefix_depth_app d0 (l1 l2 : list (parse_event X)) :
  prefix_depth d0 (l1 ++ l2) = prefix_depth (prefix_depth d0 l1) l2.
Proof.
  revert d0; induction l1 as [|e l1 IH]; intros d0; simpl.
  - rewrite prefix_depth_nil; reflexivity.
  - rewrite !prefix_depth_cons; apply IH.
Qed.

(** Running a prefix that does not stop, then the rest. *)
Lemma data_received_app pre (s : fstate X) :
  no_stop (xml_depth s) pre ->
  exists s1 e1,
    xml_depth s1 = prefix_depth (xml_depth s) pre /\
    spawned e1 = closes_at_one (xml_depth s) pre /\
    forall t s2 e2 r, data_received spawn t s1 = (s2, e2, r) ->
      data_received spawn (pre ++ t) s = (s2, e1 ++ e2, r).
Proof.
  revert s; induction pre as [|e pre IH]; intros s H.
  - exists s, []. rewrite prefix_depth_nil. repeat split; auto.
  - destruct (no_stop_cons _ _ _ H) as [He Hl].
    rewrite prefix_depth_cons, closes_at_one_cons.
    destruct e as [x|x]; cbn [delta] in Hl |- *.
    + destruct (on_start_depth x s) as [Hd Hsp].
      destruct (on_start x s) as [s1 e1] eqn:E. simpl in Hd, Hsp.
      rewrite <- Hd in Hl |- *.
      destruct (IH s1 Hl) as (s' & es & Hd' & Hs' & Hrun).
      exists s', (e1 ++ es). split; [exact Hd'|].
      split; [rewrite spawned_app, Hsp, Hs'; reflexivity|].
      intros t s2 e2 r Ht. simpl. rewrite E, (Hrun t s2 e2 r Ht), app_assoc.
      reflexivity.
    + destruct He as [Hne Hone].
      replace (xml_depth s + -1)%Z with (xml_depth s - 1)%Z in Hl |- * by lia.
      destruct (IH (set_depth (xml_depth s - 1) s) Hl)
        as (s' & es & Hd' & Hs' & Hrun).
      simpl in Hd', Hs'.
      destruct (Z.eqb_spec (xml_depth s - 1) 1) as [E1|E1].
      * exists s', (match xml_root s with
                    | Some _ => [Spawn x; ClearRoot] | None => [Spawn x] end ++ es).
        split; [exact Hd'|].
        split; [rewrite spawned_app, Hs'; destruct (xml_root s); reflexivity|].
        intros t s2 e2 r Ht. simpl.
        destruct (Z.eqb_spec (xml_depth s - 1) 0) as [E0|_]; [contradiction|].
        rewrite E1. simpl. rewrite (Hone E1).
        rewrite <- E1. rewrite (Hrun t s2 e2 r Ht), app_assoc. reflexivity.
      * exists s', es. split; [exact Hd'|]. split; [exact Hs'|].
        intros t s2 e2 r Ht. simpl.
        destruct (Z.eqb_spec (xml_depth s - 1) 0) as [E0|_]; [contradiction|].
        destruct (Z.eqb_spec (xml_depth s - 1) 1) as [E1'|_]; [contradiction|].
        apply (Hrun t s2 e2 r Ht).
Qed.

Lemma no_stop_cons_intro d0 (e : parse_event X) l :
  match e with
  | EvEnd x => (d0 - 1)%Z <> 0%Z /\ ((d0 - 1)%Z = 1%Z -> spawn x = SpawnOk)
  | EvStart _ => True
  end -> no_stop (d0 + delta e) l -> no_stop d0 (e :: l).
Proof.
  intros He Hl [|i] x Hi; simpl in Hi.
  - injection Hi as ->. simpl. rewrite prefix_depth_cons, prefix_depth_nil.
    simpl. replace (d0 + -1)%Z with (d0 - 1)%Z by lia. exact He.
  - simpl. rewrite prefix_depth_cons. exact (Hl i x Hi).
Qed.

(** Every event sequence either never stops the loop or has a first
    stopping [end] event. *)
Lemma no_stop_or_first_stop d0 (evs : list (parse_event X)) :
  no_stop d0 evs \/
  exists pre x post, evs = pre ++ EvEnd x :: post /\ no_stop d0 pre /\
    (prefix_depth d0 (pre ++ [EvEnd x]) = 0%Z \/
     (prefix_depth d0 (pre ++ [EvEnd x]) = 1%Z /\ spawn x <> SpawnOk)).
Proof.
  revert d0; induction evs as [|e evs IH]; intros d0.
  - left. intros i x Hi. discriminate.
  - assert (Hnil : no_stop d0 []) by (intros i x Hi; discriminate).
    destruct e as [x|x].
    + destruct (IH (d0 + 1)%Z) as [Hn|(pre & y & post & -> & Hpre & Hy)].
      * left. apply no_stop_cons_intro; [exact I|exact Hn].
      * right. exists (EvStart x :: pre), y, post. split; [reflexivity|].
        split; [apply no_stop_cons_intro; [exact I|exact Hpre]|].
        simpl. rewrite prefix_depth_cons. exact Hy.
    + destruct (Z.eq_dec (d0 - 1)%Z 0%Z) as [H0|H0].
      { right. exists [], x, evs. split; [reflexivity|]. split; [exact Hnil|].
        left. simpl. rewrite prefix_depth_cons, prefix_depth_nil. simpl. lia. }
      destruct (Z.eq_dec (d0 - 1)%Z 1%Z) as [H1|H1];
        [destruct (spawn x) eqn:Ex|].
      2,3: right; exists [], x, evs; split; [reflexivity|]; split; [exact Hnil|];
           right; simpl; rewrite prefix_depth_cons, prefix_depth_nil; simpl;
           rewrite Ex; split; [lia|discriminate].
      all: destruct (IH (d0 + -1)%Z) as [Hn|(pre & y & post & -> & Hpre & Hy)].
      1,3: left; apply no_stop_cons_intro; [|exact Hn]; split; auto;
           intros; contradiction.
      all: right; exists (EvEnd x :: pre), y, post; split; [reflexivity|];
           split; [apply no_stop_cons_intro; [split; auto; intros; contradiction|exact Hpre]|];
           simpl; rewrite prefix_depth_cons; exact Hy.
Qed.

End Facts.

(** Claim C1 (amended): within one call of [data_received], the
    elements handed to [__spawn_event] are exactly those whose [end]
    event returns the depth to 1, up to the first stopping [end] event.
    An [end] returning the depth to 0 sets [stream_end_event] and returns
    [False]; an [end] returning it to 1 whose [__spawn_event] raises
    stops the call too ([RestartStream]: returns [True]; any other
    exception escapes). No event after the stopping one is processed
    in that call: the result is the one for the events up to it. *)
Theorem data_received_dispatch {X} (spawn : X -> spawn_outcome)
    (s : fstate X) (evs : list (parse_event X)) :
  (no_stop spawn (xml_depth s) evs ->
     exists s' es, data_received spawn evs s = (s', es, RetNone) /\
       spawned es = closes_at_one (xml_depth s) evs) /\
  (forall pre x post, evs = pre ++ EvEnd x :: post ->
     no_stop spawn (xml_depth s) pre ->
     prefix_depth (xml_depth s) (pre ++ [EvEnd x]) = 0%Z ->
     exists s' es, data_received spawn evs s = (s', es, RetFalse) /\
       data_received spawn (pre ++ [EvEnd x]) s = (s', es, RetFalse) /\
       stream_end_event s' = true /\
       spawned es = closes_at_one (xml_depth s) pre) /\
  (forall pre x post, evs = pre ++ EvEnd x :: post ->
     no_stop spawn (xml_depth s) pre ->
     prefix_depth (xml_depth s) (pre ++ [EvEnd x]) = 1%Z ->
     spawn x <> SpawnOk ->
     let r := match spawn x with SpawnRestart => RetTrue | _ => RetRaise end in
     exists s' es, data_received spawn evs s = (s', es, r) /\
       data_received spawn (pre ++ [EvEnd x]) s = (s', es, r) /\
       spawned es = closes_at_one (xml_depth s) pre ++ [x]).
Proof.
  split; [|split].
  - intros H. destruct (data_received_no_stop spawn evs s H)
      as (s' & es & Hrun & _ & Hsp). eauto.
  - intros pre x post -> Hpre Hd.
    destruct (data_received_app spawn pre s Hpre) as (s1 & e1 & Hd1 & Hs1 & Hrun).
    rewrite prefix_depth_app, <- Hd1, prefix_depth_cons, prefix_depth_nil in Hd.
    simpl in Hd.
    assert (Hstep : forall t, data_received spawn (EvEnd x :: t) s1 =
              (mkF 0 (xml_root s1) true (reconnect_delay s1), [StreamEnded], RetFalse)).
    { intros t. simpl. replace (xml_depth s1 - 1)%Z with 0%Z by lia. reflexivity. }
    exists (mkF 0 (xml_root s1) true (reconnect_delay s1)), (e1 ++ [StreamEnded]).
    split; [apply Hrun, Hstep|]. split; [apply Hrun, Hstep|].
    split; [reflexivity|]. rewrite spawned_app, Hs1, app_nil_r. reflexivity.
  - intros pre x post -> Hpre Hd Hx r.
    destruct (data_received_app spawn pre s Hpre) as (s1 & e1 & Hd1 & Hs1 & Hrun).
    rewrite prefix_depth_app, <- Hd1, prefix_depth_cons, prefix_depth_nil in Hd.
    simpl in Hd.
    assert (Hstep : forall t, data_received spawn (EvEnd x :: t) s1 =
              (set_depth (xml_depth s1 - 1) s1, [Spawn x], r)).
    { intros t. simpl. replace (xml_depth s1 - 1)%Z with 1%Z by lia.
      simpl. subst r. destruct (spawn x); [contradiction|reflexivity|reflexivity]. }
    exists (set_depth (xml_depth s1 - 1) s1), (e1 ++ [Spawn x]).
    split; [apply Hrun, Hstep|]. split; [apply Hrun, Hstep|].
    rewrite spawned_app, Hs1. reflexivity.
Qed.


(** A stream opening, one stanza with a child, the root closing, and a
    trailing [start] event that the call never reaches. *)
Lemma data_received_dispatch_witness :
  let sp := fun _ : nat => SpawnOk in
  let pre := [EvStart 0; EvStart 1; EvStart 2; EvEnd 2; EvEnd 1] in
  no_stop sp 0 pre /\ prefix_depth 0 (pre ++ [EvEnd 0]) = 0%Z /\
  exists s' es,
    data_received sp (pre ++ [EvEnd 0; EvStart 5]) (mkF 0 None true None)
      = (s', es, RetFalse) /\
    data_received sp (pre ++ [EvEnd 0]) (mkF 0 None true None) = (s', es, RetFalse) /\
    stream_end_event s' = true /\ spawned es = closes_at_one 0 pre.
Proof.
  intros sp pre.
  assert (Hno : no_stop sp 0 pre).
  { intros i y H. destruct i as [|[|[|[|[|i]]]]]; simpl in H;
      try discriminate; injection H as <-; vm_compute;
      (split; [discriminate|reflexivity]). }
  split; [exact Hno|]. split; [vm_compute; reflexivity|].
  exact (proj1 (proj2 (data_received_dispatch sp (mkF 0 None true None)
           (pre ++ [EvEnd 0; EvStart 5]))) pre 0 [EvStart 5] eq_refl Hno eq_refl).
Defined.

(** Claim C1 as stated fails: with no root close at all, an element
    whose [end] returns the depth to 1 ([2] below) is not dispatched
    once an earlier [__spawn_event] raised [RestartStream]. *)
Lemma data_received_restart_cex :
  let sp := fun n : nat => if Nat.eqb n 1 then SpawnRestart else SpawnOk in
  let evs := [EvStart 0; EvStart 1; EvEnd 1; EvStart 2; EvEnd 2] in
  (forall i x, evs !! i = Some (EvEnd x) -> prefix_depth 0 (take (S i) evs) <> 0%Z) /\
  closes_at_one 0 evs = [1; 2] /\
  spawned (snd (fst (data_received sp evs (mkF 0 None true None)))) = [1] /\
  snd (data_received sp evs (mkF 0 None true None)) = RetTrue.
Proof.
  intros sp evs.
  split; [|split; [vm_compute; reflexivity|split; vm_compute; reflexivity]].
  intros i y H. destruct i as [|[|[|[|[|i]]]]]; simpl in H;
    try discriminate; injection H as <-; vm_compute; discriminate.
Qed.

End FramerFacts.

(* ------------------------------------------------------------------ *)
(** ** STARTTLS *)

Module StarttlsFacts.
Import Starttls.

(** Claim C10: [get_required] is [True] for every [STARTTLS] stanza,
    whatever its XML content. *)
Theorem starttls_get_required {E} (st : STARTTLS E) : get_required st = true.
Proof. reflexivity. Qed.

End StarttlsFacts.

(* ------------------------------------------------------------------ *)
(** ** Reconnect backoff *)

Module BackoffFacts.
Import Backoff.

Lemma run_conn_app (b : bstate) (l1 l2 : list conn_event) :
  run_conn b (l1 ++ l2) = run_conn (run_conn b l1) l2.
Proof. unfold run_conn. apply fold_left_app. Qed.

(** Failed attempts leave the backoff state as it is. *)
Lemma failed_attempts_keep_state (b : bstate) (n : nat) :
  run_conn b (repeat FailedAttempt n) = b.
Proof. induction n as [|n IH]; simpl; [reflexivity|exact IH]. Qed.

(** Claim C2 (code bug): after a stream header, [reconnect_delay] is 1.0
    and stays 1.0 through any number of failed attempts, whatever the
    configured ceiling [reconnect_max_delay]: the delay neither grows
    nor is compared with the ceiling. *)
Theorem reconnect_delay_after_header (b : bstate) (n : nat) :
  b_reconnect_delay (run_conn b (StreamHeader :: repeat FailedAttempt n)) = Some 1%Q /\
  reconnect_max_delay (run_conn b (StreamHeader :: repeat FailedAttempt n)) =
    reconnect_max_delay b.
Proof.
  change (StreamHeader :: repeat FailedAttempt n)
    with ([StreamHeader] ++ repeat FailedAttempt n).
  rewrite run_conn_app, failed_attempts_keep_state. split; reflexivity.
Qed.

(** The failing input: a ceiling of 0.5 seconds. *)
Example reconnect_delay_above_ceiling :
  let b := run_conn (mkB None (1#2)) [StreamHeader; FailedAttempt; FailedAttempt] in
  b_reconnect_delay b = Some 1%Q /\ Qle_bool 1 (reconnect_max_delay b) = false.
Proof. split; reflexivity. Qed.

End BackoffFacts.

(* ------------------------------------------------------------------ *)
(** ** When [event] raises *)

Module EventLoop.
Import Events.

Lemma ev_loop_plain has_lock fuel i hs ran :
  Forall (fun h => disposable h = false) hs ->
  length hs - i <= fuel ->
  ev_loop has_lock fuel i hs ran = (hs, ran ++ map pointer (drop i hs), false).
Proof.
  intros Hall. revert i ran. induction fuel as [|f IH]; intros i ran Hf; simpl.
  - rewrite drop_ge by lia. simpl. rewrite app_nil_r. reflexivity.
  - destruct (hs !! i) as [h|] eqn:Ei.
    + rewrite Forall_lookup in Hall. rewrite (Hall i h Ei).
      rewrite IH by lia. rewrite <- app_assoc. f_equal. f_equal.
      rewrite (drop_S hs h i Ei). reflexivity.
    + apply lookup_ge_None in Ei. rewrite drop_ge by lia. simpl.
      rewrite app_nil_r. reflexivity.
Qed.

Lemma ev_loop_no_lock fuel i pre h post ran :
  Forall (fun h => disposable h = false) pre -> disposable h = true ->
  i <= length pre -> length (pre ++ h :: post) - i <= fuel ->
  ev_loop false fuel i (pre ++ h :: post) ran =
    (pre ++ h :: post, ran ++ map pointer (drop i pre) ++ [pointer h], true).
Proof.
  intros Hall Hh. revert i ran. induction fuel as [|f IH]; intros i ran Hi Hf.
  - rewrite length_app in Hf. simpl in Hf. lia.
  - simpl. destruct (decide (i = length pre)) as [->|Hne].
    + rewrite list_lookup_middle by reflexivity. rewrite Hh.
      rewrite drop_ge by lia. reflexivity.
    + assert (Hlt : i < length pre) by lia.
      destruct (lookup_lt_is_Some_2 pre i Hlt) as [g Eg].
      rewrite (lookup_app_l_Some _ _ _ _ Eg).
      rewrite Forall_lookup in Hall. rewrite (Hall i g Eg).
      rewrite IH by (rewrite ?length_app in *; simpl in *; lia).
      rewrite (drop_S pre g i Eg). simpl. rewrite <- app_assoc. reflexivity.
Qed.

Lemma disposable_split (hs : list ehandler) :
  Forall (fun h => disposable h = false) hs \/
  exists pre h post, hs = pre ++ h :: post /\
    Forall (fun h => disposable h = false) pre /\ disposable h = true.
Proof.
  induction hs as [|g hs IH]; [left; constructor|].
  destruct (disposable g) eqn:Eg.
  - right. exists [], g, hs. split_and!; [reflexivity|constructor|exact Eg].
  - destruct IH as [IH|(pre & h & post & -> & Hpre & Hh)].
    + left. constructor; assumption.
    + right. exists (g :: pre), h, post. split_and!; [reflexivity| |exact Hh].
      constructor; assumption.
Qed.

(** In [XMLStream], [event(name)] raises exactly when a handler of
    [name] is disposable. *)
Lemma event_raises_iff (name : string) (m : etable) :
  (event xmlstream_has_lock name m).2 = true <->
  exists hs h, m !! name = Some hs /\ h ∈ hs /\ disposable h = true.
Proof.
  unfold event, xmlstream_has_lock. destruct (m !! name) as [hs|] eqn:Em.
  - destruct (disposable_split hs) as [Hall|(pre & h & post & -> & Hpre & Hh)].
    + rewrite ev_loop_plain by (exact Hall || lia). simpl. split; [discriminate|].
      intros (hs' & h & [= <-] & Hin & Hh). rewrite Forall_forall in Hall.
      rewrite (Hall h Hin) in Hh. discriminate.
    + rewrite ev_loop_no_lock by (exact Hpre || exact Hh || rewrite ?length_app; lia).
      simpl. split; [|reflexivity]. intros _. exists (pre ++ h :: post), h.
      split_and!; [reflexivity|set_solver|exact Hh].
  - simpl. split; [discriminate|]. intros (hs & h & [=] & _).
Qed.

End EventLoop.

(* ------------------------------------------------------------------ *)
(** ** Send worker *)

Module SendWorkerFacts.
Import SendWorker.
Import EventLoop.

Section Facts.
Variable encode : string -> list Byte.byte.
Variable ssl_retry_max : nat.
Variable ssl_retry_delay : Q.
Variable auto_reconnect : bool.
Variable ev_handlers : Events.etable.

Local Abbreviation step :=
  (worker_step encode ssl_retry_max ssl_retry_delay auto_reconnect ev_handlers).

(** Claim C3 (code bug): an [ssl.SSLError] raised by [socket.send] in
    the write loop is caught by the first clause,
    [except Socket.error], and re-raised unless its errno is [EINTR]:
    the [except ssl.SSLError] retry branch is never reached, no sleep
    or retry happens, and the outer handler runs at once. *)
Theorem ssl_error_not_retried (w : wstate) d sent count tries n rest :
  w_pc w = Send d sent count tries ->
  Nat.ltb sent (length (encode d)) && negb (stop w) && session_started w = true ->
  sock w = SendErr (SSLError n) :: rest ->
  n <> EINTR ->
  step w = Some (socket_error_handler auto_reconnect ev_handlers d (SSLError n) (set_sock rest w)).
Proof.
  intros Hpc Hc Hs Hn. unfold worker_step. rewrite Hpc, Hc, Hs. simpl.
  rewrite bool_decide_false; [reflexivity|]. intros [= ->]. apply Hn; reflexivity.
Qed.

(** Claim C4 (amended): a socket error that escapes the write loop
    while [stop] is unset and no ['socket_error'] handler is disposable
    leaves the in-flight item in [__failed_send_stanza], raises
    [socket_error] and calls [disconnect(auto_reconnect,
    send_close=False)]; the worker reaches the point where it takes an
    item only by leaving the session-start gate (with [stop] or
    [session_started] set); there it takes the retained item before any
    queue item, and the queue is only ever popped from that point with
    no retained item. *)
Theorem failed_item_retained_after_gate :
  (forall (w : wstate) d sent count tries e rest,
     w_pc w = Send d sent count tries ->
     Nat.ltb sent (length (encode d)) && negb (stop w) && session_started w = true ->
     sock w = SendErr e :: rest ->
     is_socket_error e = true -> exn_errno e <> Some EINTR ->
     stop w = false ->
     (forall hs h, ev_handlers !! "socket_error" = Some hs -> h ∈ hs ->
        Events.disposable h = false) ->
     exists w', step w = Some w' /\ failed_send_stanza w' = Some d /\
       w_pc w' = Done /\
       wlog w' = wlog w ++ [SocketErrorEvent e; EndThread; Disconnect auto_reconnect false]) /\
  (forall w w', step w = Some w' -> w_pc w' = Take ->
     w_pc w = Gate /\ (stop w || session_started w) = true) /\
  (forall w d, w_pc w = Take -> failed_send_stanza w = Some d ->
     step w = Some (goto (Send d 0 0 0) (set_failed None w))) /\
  (forall w w', step w = Some w' -> send_queue w' <> send_queue w ->
     w_pc w = Take /\ failed_send_stanza w = None).
Proof.
  split; [|split; [|split]].
  - intros w d sent count tries e rest Hpc Hc Hs He Hn Hstop Hnd.
    unfold worker_step. rewrite Hpc, Hc, Hs, He.
    rewrite bool_decide_false by exact Hn.
    eexists; split; [reflexivity|]. unfold socket_error_handler. simpl.
    destruct (Events.event Events.xmlstream_has_lock "socket_error" ev_handlers).2 eqn:Er.
    { apply event_raises_iff in Er as (hs & h & Hhs & Hin & Hh).
      rewrite (Hnd hs h Hhs Hin) in Hh. discriminate. }
    rewrite Hstop. simpl. rewrite <- app_assoc. auto.
  - intros w w' H Hp. unfold worker_step in H.
    destruct (w_pc w) as [| | |d sent count tries|] eqn:Epc; simpl in H.
    + destruct (stop w); injection H as <-; discriminate.
    + destruct (stop w), (session_started w); simpl in H; injection H as <-;
        simpl in Hp; try congruence; split; reflexivity.
    + destruct (failed_send_stanza w); [injection H as <-; discriminate|].
      destruct (send_queue w) as [|[]]; try discriminate; injection H as <-; discriminate.
    + destruct (Nat.ltb sent (length (encode d)) && negb (stop w) && session_started w); [|injection H as <-; discriminate].
      destruct (sock w) as [|[n|e] rest]; [discriminate|injection H as <-; discriminate|].
      destruct (is_socket_error e); [destruct (bool_decide (exn_errno e = Some EINTR))|destruct (is_ssl_error e)];
        injection H as <-;
        unfold socket_error_handler, ssl_retry_branch, generic_handler in Hp;
        simpl in Hp; repeat case_match; simpl in Hp; congruence.
    + discriminate.
  - intros w d Hpc Hf. unfold worker_step. rewrite Hpc, Hf. reflexivity.
  - intros w w' H Hq. unfold worker_step in H.
    destruct (w_pc w) as [| | |d sent count tries|]; simpl in H.
    + destruct (stop w); injection H as <-; contradiction.
    + destruct (negb (stop w) && negb (session_started w)); injection H as <-; contradiction.
    + destruct (failed_send_stanza w); [injection H as <-; contradiction|].
      auto.
    + destruct (Nat.ltb sent (length (encode d)) && negb (stop w) && session_started w); [|injection H as <-; contradiction].
      destruct (sock w) as [|[n|e] rest]; [discriminate|injection H as <-; contradiction|].
      destruct (is_socket_error e); [destruct (bool_decide (exn_errno e = Some EINTR))|destruct (is_ssl_error e)];
        injection H as <-;
        unfold socket_error_handler, ssl_retry_branch, generic_handler in Hq;
        simpl in Hq; repeat case_match; simpl in Hq; congruence.
    + discriminate.
Qed.

End Facts.

Definition ascii_encode (s : string) : list Byte.byte := String.list_byte_of_string s.

(** The first [socket.send] of an item raises an [SSLError] with
    [SSL_ERROR_WANT_WRITE] (3), with the defaults [SSL_RETRY_MAX = 10]
    and [SSL_RETRY_DELAY = 0.5]. *)
Lemma ssl_error_not_retried_witness :
  let w := mkW (Send "x" 0 0 0) false true None [] [SendErr (SSLError 3)] [] in
  worker_step ascii_encode 10 (1#2) true ∅ w =
    Some (socket_error_handler true ∅ "x" (SSLError 3) (set_sock [] w)) /\
  socket_error_handler true ∅ "x" (SSLError 3) (set_sock [] w) =
    mkW Done false true (Some "x") [] []
        [SocketErrorEvent (SSLError 3); EndThread; Disconnect true false].
Proof.
  split; [|reflexivity].
  apply (ssl_error_not_retried ascii_encode 10 (1#2) true ∅ _ "x" 0 0 0 3 []);
    [reflexivity|reflexivity|reflexivity|discriminate].
Defined.

(** A broken pipe ([EPIPE], 32) on the first write of ["x"], then a
    fresh worker past its gate with ["x"] retained and ["y"] queued. *)
Lemma failed_item_retained_after_gate_witness :
  let w := mkW (Send "x" 0 0 0) false true None [Some "y"] [SendErr (SocketError 32)] [] in
  let t := mkW Take false true (Some "x") [Some "y"] [] [] in
  (exists w', worker_step ascii_encode 10 (1#2) true ∅ w = Some w' /\
     failed_send_stanza w' = Some "x" /\ w_pc w' = Done /\
     wlog w' = wlog w ++ [SocketErrorEvent (SocketError 32); EndThread; Disconnect true false]) /\
  worker_step ascii_encode 10 (1#2) true ∅ t = Some (goto (Send "x" 0 0 0) (set_failed None t)).
Proof.
  intros w t. destruct (failed_item_retained_after_gate ascii_encode 10 (1#2) true ∅)
    as (H1 & _ & H3 & _).
  split.
  - apply (H1 w "x" 0 0 0 (SocketError 32) []);
      [reflexivity|reflexivity|reflexivity|reflexivity|discriminate|reflexivity|].
    intros hs h Hhs. discriminate Hhs.
  - apply (H3 t "x"); reflexivity.
Defined.

(** Claim C4 as stated fails: a worker holding a retained item while
    the session has not started keeps waiting at its gate; it does not
    send the retained item first. *)
Lemma retained_item_waits_for_session :
  run_worker ascii_encode 10 (1#2) true ∅ 4
    (mkW Outer false false (Some "x") [Some "y"] [] []) =
  mkW Gate false false (Some "x") [Some "y"] [] [Wait; Wait; Wait].
Proof. reflexivity. Qed.

End SendWorkerFacts.

(* ------------------------------------------------------------------ *)
(** ** Inbound dispatch *)

Module DispatchFacts.
Import Dispatch.

(** The [Fire] entries of a log, as (handler, object, content seen). *)
Fixpoint fires {S} (l : list (deffect S)) : list (nat * nat * S) :=
  match l with
  | [] => []
  | Fire i loc v :: l' => (i, loc, v) :: fires l'
  | _ :: l' => fires l'
  end.

(** How many times handler [i] fired in a log. *)
Definition fire_count {S} (i : nat) (l : list (deffect S)) : nat :=
  length (filter (fun f : nat * nat * S => f.1.1 = i) (fires l)).

Section Facts.
Context {XML Stz : Type} `{Inhabited Stz}.
Variable hobj : nat -> handler_obj Stz.
Variable incoming_filter : XML -> XML.
Variable build_stanza : XML -> Stz.
Variable filters_in : list (Stz -> option Stz).

Local Abbreviation spawn := (spawn_event hobj incoming_filter build_stanza filters_in).
Local Abbreviation fire_all' := (fire_all hobj).

Lemma fires_app (l1 l2 : list (deffect Stz)) : fires (l1 ++ l2) = fires l1 ++ fires l2.
Proof. induction l1 as [|[] l1 IH]; simpl; rewrite ?IH; reflexivity. Qed.

Lemma fires_match_evals (l : list nat) : fires (map (@MatchEval Stz) l) = [].
Proof. induction l; simpl; auto. Qed.

Lemma filter_none_match v (l : list nat) :
  Forall (fun i => hmatch (hobj i) v = false) l ->
  filter (fun i => hmatch (hobj i) v = true) l = [].
Proof.
  induction 1 as [|i l Hi _ IH]; [reflexivity|].
  rewrite filter_cons. case_decide; [congruence|exact IH].
Qed.

(** Claim C5: if the inbound filter chain drops the stanza, no matcher
    is evaluated, no handler fires and [unhandled] is not called (the
    log is unchanged); if it survives and no handler matches it, every
    matcher is evaluated and [unhandled] is called exactly once. *)
Theorem spawn_event_drop_or_unhandled (xml : XML) (st : dstate Stz) :
  (apply_filters filters_in (Some (build_stanza (incoming_filter xml))) = None ->
     dlog (spawn xml st) = dlog st /\ handlers (spawn xml st) = handlers st) /\
  (forall v, apply_filters filters_in (Some (build_stanza (incoming_filter xml))) = Some v ->
     Forall (fun i => hmatch (hobj i) v = false) (handlers st) ->
     dlog (spawn xml st) =
       dlog st ++ map MatchEval (handlers st) ++ [Unhandled (next_obj st)]).
Proof.
  split.
  - intros Hn. unfold spawn_event. simpl. rewrite Hn. split; reflexivity.
  - intros v Hv Hm. unfold spawn_event. simpl. rewrite Hv. simpl.
    rewrite (filter_none_match v _ Hm). simpl.
    rewrite <- app_assoc. reflexivity.
Qed.

Lemma prerun_fields i (st : dstate Stz) :
  heap (prerun hobj i st) = heap st /\ next_obj (prerun hobj i st) = next_obj st /\
  dlog (prerun hobj i st) = dlog st /\ handlers (prerun hobj i st) = handlers st.
Proof. unfold prerun. destruct (once (hobj i)); repeat split. Qed.

(** With [len(matched_handlers) > 1], each handler runs on a new copy of
    the stanza object [l0], and sees the content [l0] had before any
    handler ran. *)
Lemma fire_all_multi (l0 : nat) (v : Stz) (ms : list nat) (st : dstate Stz) :
  heap st !!! l0 = v -> l0 < next_obj st ->
  exists locs,
    fires (dlog (fire_all' true l0 ms st)) =
      fires (dlog st) ++ zip_with (fun i loc => (i, loc, v)) ms locs /\
    length locs = length ms /\ NoDup locs /\
    Forall (fun loc => next_obj st <= loc) locs.
Proof.
  revert st; induction ms as [|i ms IH]; intros st Hv Hlt.
  - exists []. simpl. rewrite app_nil_r. repeat split; constructor.
  - simpl fire_all.
    match goal with |- context [prerun hobj i ?x] =>
      destruct (prerun_fields i x) as (Eh & En & El & _);
      set (st2 := prerun hobj i x) in * end.
    simpl in Eh, En, El.
    set (n := next_obj st) in *.
    set (st5 := if check_delete i _ then _ else _).
    assert (Hst5 : heap st5 =
              <[n := hrun (hobj i) v]> (<[n + 1 := v]> (<[n := v]> (heap st))) /\
            next_obj st5 = n + 1 + 1 /\
            dlog st5 = dlog st ++ [Fire i n v]).
    { assert (Hseen : <[next_obj st2 := heap st2 !!! n]> (heap st2) !!! n = v).
      { rewrite En, Eh, lookup_total_insert_ne by lia.
        rewrite lookup_total_insert_eq. subst n. rewrite Hv. reflexivity. }
      subst st5. simpl in Hseen |- *. rewrite Hseen.
      destruct (check_delete _ _); simpl; rewrite En, Eh, El;
        rewrite lookup_total_insert_eq, <- Hv; repeat split. }
    destruct Hst5 as (Eh5 & En5 & El5). clearbody st5 st2 n.
    destruct (IH st5) as (locs & Hf & Hlen & Hnd & Hge).
    { rewrite Eh5. do 3 (rewrite lookup_total_insert_ne by lia). exact Hv. }
    { rewrite En5. lia. }
    exists (n :: locs). rewrite Hf, El5, fires_app. simpl.
    split; [rewrite <- app_assoc; reflexivity|].
    split; [simpl; rewrite Hlen; reflexivity|].
    rewrite En5 in Hge. split.
    + constructor; [|exact Hnd]. intros Hin.
      rewrite Forall_forall in Hge. specialize (Hge n). apply Hge in Hin. lia.
    + constructor; [lia|]. eapply Forall_impl; [exact Hge|]. intros x Hx; simpl in Hx; lia.
Qed.

(** With a single matched handler, it runs on the stanza object [l0]
    itself. *)
Lemma fire_all_single (l0 : nat) (v : Stz) (i : nat) (st : dstate Stz) :
  heap st !!! l0 = v -> l0 < next_obj st ->
  fires (dlog (fire_all' false l0 [i] st)) = fires (dlog st) ++ [(i, l0, v)].
Proof.
  intros Hv Hlt. simpl fire_all.
  match goal with |- context [prerun hobj i ?x] =>
    destruct (prerun_fields i x) as (Eh & En & El & _);
    set (st2 := prerun hobj i x) in * end.
  assert (Hseen : <[next_obj st2 := heap st2 !!! l0]> (heap st2) !!! l0 = v).
  { rewrite En, Eh, lookup_total_insert_ne by lia. exact Hv. }
  simpl. rewrite Hseen.
  destruct (check_delete _ _); simpl; rewrite El, fires_app; reflexivity.
Qed.

Lemma fires_log_d (es : list (deffect Stz)) (st : dstate Stz) :
  fires (dlog (log_d es st)) = fires (dlog st) ++ fires es.
Proof. simpl. apply fires_app. Qed.

(** Claim C6: when the stanza survives the filters with content [v],
    every handler of [self.__handlers] whose matcher accepts [v] fires, in
    list order, each on its own stanza object (pairwise distinct objects),
    and each sees the content [v]: no handler observes what another one
    wrote into its copy. *)
Theorem spawn_event_fires_all_matched (xml : XML) (st : dstate Stz) (v : Stz) :
  apply_filters filters_in (Some (build_stanza (incoming_filter xml))) = Some v ->
  exists locs,
    fires (dlog (spawn xml st)) =
      fires (dlog st) ++
      zip_with (fun i loc => (i, loc, v))
        (filter (fun i => hmatch (hobj i) v = true) (handlers st)) locs /\
    length locs = length (filter (fun i => hmatch (hobj i) v = true) (handlers st)) /\
    NoDup locs.
Proof.
  intros Hv. unfold spawn_event. simpl. rewrite Hv.
  set (m := filter (fun i => hmatch (hobj i) v = true) (handlers st)).
  set (st3 := log_d (map MatchEval (handlers st))
                (write (next_obj st) v
                   (mkD (handlers st) (bound st) (destroyed st)
                      (<[next_obj st := build_stanza (incoming_filter xml)]> (heap st))
                      (next_obj st + 1) (dlog st)))).
  assert (E3v : heap st3 !!! next_obj st = v).
  { subst st3. simpl. apply lookup_total_insert_eq. }
  assert (E3n : next_obj st < next_obj st3) by (subst st3; simpl; lia).
  assert (E3l : fires (dlog st3) = fires (dlog st)).
  { subst st3. simpl. rewrite fires_app, fires_match_evals, app_nil_r. reflexivity. }
  change (Nat.ltb 1 (length (filter (fun i => hmatch (hobj i) v = true)
            (handlers st)))) with (Nat.ltb 1 (length m)).
  clearbody st3 m.
  destruct m as [|i [|j r]] eqn:Em.
  - exists []. rewrite bool_decide_eq_true_2 by reflexivity.
    rewrite fires_log_d. simpl fire_all. rewrite E3l. simpl.
    rewrite !app_nil_r. repeat split; constructor.
  - exists [next_obj st]. rewrite bool_decide_eq_false_2 by discriminate.
    simpl Nat.ltb. rewrite (fire_all_single _ v) by assumption. rewrite E3l.
    repeat split. constructor; [set_solver|constructor].
  - rewrite bool_decide_eq_false_2 by discriminate. simpl Nat.ltb.
    destruct (fire_all_multi (next_obj st) v (i :: j :: r) st3 E3v E3n)
      as (locs & Hf & Hlen & Hnd & _).
    exists locs. change (1 <? S (S (length r))) with true. rewrite Hf, E3l.
    repeat split; assumption.
Qed.

(** One pass of the body of [for handler in matched_handlers:]. *)
Definition fire_body (multi : bool) (l0 j : nat) (st : dstate Stz) : dstate Stz :=
  let '(loc, st1) := if multi then alloc (heap st !!! l0) st else (l0, st) in
  let st2 := prerun hobj j st1 in
  let '(_, st3) := alloc (heap st2 !!! loc) st2 in
  let seen := heap st3 !!! loc in
  let st4 := write loc (hrun (hobj j) seen) (log_d [Fire j loc seen] st3) in
  if check_delete j st4 then set_handlers (remove_first j (handlers st4)) st4 else st4.

Lemma fire_all_cons multi l0 j ms (st : dstate Stz) :
  fire_all' multi l0 (j :: ms) st = fire_all' multi l0 ms (fire_body multi l0 j st).
Proof. destruct multi; reflexivity. Qed.

Lemma fire_body_fields multi l0 j (st : dstate Stz) :
  bound (fire_body multi l0 j st) = bound st /\
  destroyed (fire_body multi l0 j st) =
    (if once (hobj j) then {[j]} ∪ destroyed st else destroyed st) /\
  handlers (fire_body multi l0 j st) =
    (if bool_decide (j ∈ destroyed (fire_body multi l0 j st))
     then remove_first j (handlers st) else handlers st) /\
  exists loc seen, dlog (fire_body multi l0 j st) = dlog st ++ [Fire j loc seen].
Proof.
  unfold fire_body, check_delete, prerun.
  destruct multi, (once (hobj j)); simpl;
    repeat case_decide; simpl; (split; [reflexivity|]);
    (split; [reflexivity|]); (split; [reflexivity || set_solver|]); eauto.
Qed.

Lemma remove_first_sub j x l : x ∈ remove_first j l -> x ∈ l.
Proof.
  induction l as [|k l IH]; simpl; [done|].
  destruct (Nat.eqb j k); [set_solver|].
  rewrite !elem_of_cons. intuition.
Qed.

Lemma remove_first_nodup j l : NoDup l -> NoDup (remove_first j l).
Proof.
  induction 1 as [|k l Hk Hnd IH]; simpl; [constructor|].
  destruct (Nat.eqb j k); [exact Hnd|].
  constructor; [|exact IH]. intros Hin. apply Hk, (remove_first_sub j), Hin.
Qed.

Lemma remove_first_gone j l : NoDup l -> j ∉ remove_first j l.
Proof.
  induction 1 as [|k l Hk Hnd IH]; simpl; [set_solver|].
  destruct (Nat.eqb j k) eqn:E.
  - apply Nat.eqb_eq in E. subst. exact Hk.
  - apply Nat.eqb_neq in E. rewrite elem_of_cons. intuition.
Qed.

Lemma remove_by_name_sub n x l : x ∈ remove_by_name hobj n l -> x ∈ l.
Proof.
  induction l as [|k l IH]; simpl; [done|].
  destruct (String.eqb _ _); [set_solver|].
  rewrite !elem_of_cons. intuition.
Qed.

Lemma remove_by_name_nodup n l : NoDup l -> NoDup (remove_by_name hobj n l).
Proof.
  induction 1 as [|k l Hk Hnd IH]; simpl; [constructor|].
  destruct (String.eqb _ _); [exact Hnd|].
  constructor; [|exact IH]. intros Hin. apply Hk, (remove_by_name_sub n), Hin.
Qed.

Lemma fire_count_app i (l1 l2 : list (deffect Stz)) :
  fire_count i (l1 ++ l2) = fire_count i l1 + fire_count i l2.
Proof. unfold fire_count. rewrite fires_app, filter_app, length_app. reflexivity. Qed.

Lemma fire_count_fire i j loc (seen : Stz) :
  fire_count i [Fire j loc seen] = if Nat.eqb j i then 1 else 0.
Proof.
  unfold fire_count. simpl. rewrite filter_cons. simpl.
  destruct (Nat.eqb j i) eqn:E;
    [apply Nat.eqb_eq in E | apply Nat.eqb_neq in E]; case_decide; simpl; congruence.
Qed.

Section Once.
(** The handler [i] under study, registered with [once=True]. *)
Variable i : nat.
Hypothesis Honce : once (hobj i) = true.

(** The invariant of the handler list between two operations. *)
Definition once_inv (st : dstate Stz) : Prop :=
  NoDup (handlers st) /\
  (forall j, j ∈ handlers st -> j ∈ bound st) /\
  (i ∈ destroyed st -> i ∈ bound st /\ i ∉ handlers st) /\
  (fire_count i (dlog st) = 0 \/ (fire_count i (dlog st) = 1 /\ i ∈ destroyed st)).

(** The invariant of [for handler in matched_handlers:], with [ms] the
    handlers still to run. *)
Definition loop_inv (ms : list nat) (st : dstate Stz) : Prop :=
  once_inv st /\ NoDup ms /\ (forall j, j ∈ ms -> j ∈ bound st) /\
  (i ∈ destroyed st -> i ∉ ms).

Lemma fire_body_inv multi l0 j ms (st : dstate Stz) :
  loop_inv (j :: ms) st -> loop_inv ms (fire_body multi l0 j st).
Proof.
  intros ((Hnd & Hsub & Hdes & Hcnt) & Hndm & Hmb & Hdm).
  destruct (fire_body_fields multi l0 j st) as (Eb & Ed & Eh & loc & seen & El).
  set (st' := fire_body multi l0 j st) in *. clearbody st'.
  inversion Hndm as [|? ? Hjm Hndm']; subst.
  assert (Hhsub : forall x, x ∈ handlers st' -> x ∈ handlers st).
  { intros x. rewrite Eh. case_decide; [apply remove_first_sub|auto]. }
  assert (Hhnd : NoDup (handlers st')).
  { rewrite Eh. case_decide; [apply remove_first_nodup|]; exact Hnd. }
  unfold loop_inv, once_inv. rewrite El, Eb, fire_count_app, fire_count_fire.
  destruct (Nat.eqb j i) eqn:Eji.
  - apply Nat.eqb_eq in Eji. subst j.
    assert (Hi : i ∈ destroyed st') by (rewrite Ed, Honce; set_solver).
    assert (Hi0 : i ∉ destroyed st) by (intros Hd; apply (Hdm Hd); set_solver).
    assert (Hgone : i ∉ handlers st').
    { rewrite Eh. rewrite bool_decide_eq_true_2 by exact Hi. apply remove_first_gone, Hnd. }
    destruct Hcnt as [Hc|[_ Hc]]; [|contradiction].
    rewrite Hc. split_and!; auto.
    + intros _. split; [apply Hmb; set_solver|exact Hgone].
    + intros x Hx. apply Hmb. set_solver.
  - apply Nat.eqb_neq in Eji.
    assert (Hdi : i ∈ destroyed st' -> i ∈ destroyed st).
    { rewrite Ed. destruct (once (hobj j)); set_solver. }
    rewrite Nat.add_0_r. split_and!; auto.
    + intros Hd. destruct (Hdes (Hdi Hd)) as [Hb Hn].
      split; [exact Hb|]. intros Hx. apply Hn, Hhsub, Hx.
    + destruct Hcnt as [Hc|[Hc Hd]]; [left; exact Hc|right; split; [exact Hc|]].
      rewrite Ed. destruct (once (hobj j)); set_solver.
    + intros x Hx. apply Hmb. set_solver.
    + intros Hd Hx. apply (Hdm (Hdi Hd)). set_solver.
Qed.

Lemma fire_all_inv multi l0 ms (st : dstate Stz) :
  loop_inv ms st -> once_inv (fire_all' multi l0 ms st).
Proof.
  revert st. induction ms as [|j ms IH]; intros st Hl.
  - exact (proj1 Hl).
  - rewrite fire_all_cons. apply IH, fire_body_inv, Hl.
Qed.

Lemma once_inv_log (es : list (deffect Stz)) (st : dstate Stz) :
  fires es = [] -> once_inv st -> once_inv (log_d es st).
Proof.
  intros Hes (Hnd & Hsub & Hdes & Hcnt). unfold once_inv. simpl.
  assert (E : fire_count i (dlog st ++ es) = fire_count i (dlog st)).
  { rewrite fire_count_app. unfold fire_count at 2. rewrite Hes. simpl. lia. }
  rewrite E. auto.
Qed.

Lemma spawn_event_inv xml (st : dstate Stz) : once_inv st -> once_inv (spawn xml st).
Proof.
  intros Hinv. unfold spawn_event. simpl.
  destruct (apply_filters _ _) as [v|]; [|exact Hinv].
  set (st3 := log_d (map MatchEval (handlers st))
                (write (next_obj st) v
                   (mkD (handlers st) (bound st) (destroyed st)
                      (<[next_obj st := build_stanza (incoming_filter xml)]> (heap st))
                      (next_obj st + 1) (dlog st)))).
  assert (H3 : once_inv st3) by (apply once_inv_log; [apply fires_match_evals|exact Hinv]).
  assert (Hl : loop_inv (filter (fun j => hmatch (hobj j) v = true) (handlers st)) st3).
  { destruct Hinv as (Hnd & Hsub & Hdes & _).
    split_and!; [exact H3| |intros j Hj; apply Hsub; apply list_elem_of_filter in Hj; tauto|].
    - apply NoDup_filter, Hnd.
    - intros Hd Hj. apply list_elem_of_filter in Hj. apply (proj2 (Hdes Hd)). tauto. }
  case_bool_decide; [apply once_inv_log; [reflexivity|]|]; apply fire_all_inv, Hl.
Qed.

Lemma dop_step_inv (st : dstate Stz) (o : dop) :
  once_inv st -> once_inv (dop_step hobj incoming_filter build_stanza filters_in st o).
Proof.
  intros Hinv. destruct o as [j|n|x]; simpl.
  - unfold register_handler. case_decide as Hb; [exact Hinv|].
    destruct Hinv as (Hnd & Hsub & Hdes & Hcnt). unfold once_inv. simpl.
    split_and!.
    + apply NoDup_app. split_and!; [exact Hnd| |apply NoDup_singleton].
      intros x Hx Hx'. apply list_elem_of_singleton in Hx'. subst. apply Hb, Hsub, Hx.
    + intros x Hx. apply elem_of_app in Hx as [Hx|Hx]; [apply Hsub in Hx; set_solver|set_solver].
    + intros Hd. destruct (Hdes Hd) as [Hib Hin]. split; [set_solver|].
      rewrite elem_of_app, list_elem_of_singleton. intros [Hx| ->]; [exact (Hin Hx)|exact (Hb Hib)].
    + exact Hcnt.
  - destruct Hinv as (Hnd & Hsub & Hdes & Hcnt). unfold remove_handler, once_inv. simpl.
    split_and!.
    + apply remove_by_name_nodup, Hnd.
    + intros x Hx. apply Hsub, (remove_by_name_sub n), Hx.
    + intros Hd. destruct (Hdes Hd) as [Hib Hin]. split; [exact Hib|].
      intros Hx. apply Hin, (remove_by_name_sub n), Hx.
    + exact Hcnt.
  - apply spawn_event_inv, Hinv.
Qed.

Lemma run_dops_inv (st : dstate Stz) (os : list dop) :
  once_inv st -> once_inv (run_dops hobj incoming_filter build_stanza filters_in st os).
Proof.
  unfold run_dops. revert st. induction os as [|o os IH]; intros st Hinv; simpl.
  - exact Hinv.
  - apply IH, dop_step_inv, Hinv.
Qed.

Lemma once_inv_init : once_inv init_dstate.
Proof.
  unfold once_inv, init_dstate. simpl. split_and!; [constructor|set_solver|set_solver|left; reflexivity].
Qed.

End Once.

(** Claim C7: a handler registered with [once=True] fires at most once
    over any sequence of registrations, removals and dispatched stanzas;
    and in every state reached after it has fired, in particular right
    after the dispatch in which it fired and before the next stanza is
    dispatched, it is no longer in the handler list. *)
Theorem once_handler_fires_at_most_once (i : nat) (os : list (@dop XML)) :
  once (hobj i) = true ->
  fire_count i (dlog (run_dops hobj incoming_filter build_stanza filters_in init_dstate os))
    <= 1 /\
  (fire_count i (dlog (run_dops hobj incoming_filter build_stanza filters_in init_dstate os))
     = 1 ->
   i ∉ handlers (run_dops hobj incoming_filter build_stanza filters_in init_dstate os)).
Proof.
  intros Honce.
  destruct (run_dops_inv i Honce init_dstate os (once_inv_init i Honce)) as (_ & _ & Hdes & Hc).
  destruct Hc as [Hc|[Hc Hd]].
  - rewrite Hc. split; [lia|discriminate].
  - rewrite Hc. split; [lia|intros _; exact (proj2 (Hdes Hd))].
Qed.


End Facts.

(** A concrete configuration: stanza contents are numbers, handlers [0]
    and [1] both match a positive content and add [10] to it. *)
Definition demo_hobj (i : nat) : handler_obj nat :=
  mkH nat "h" (fun s => Nat.ltb 0 s) (fun s => s + 10) false.
Definition demo_st : dstate nat := mkD [0; 1] ∅ ∅ ∅ 0 [].

Lemma spawn_event_drop_or_unhandled_witness :
  dlog (spawn_event demo_hobj id id [] 0 demo_st) =
    [MatchEval 0; MatchEval 1; Unhandled 0] /\
  dlog (spawn_event demo_hobj id id [fun _ => None] 5 demo_st) = [].
Proof.
  destruct (spawn_event_drop_or_unhandled demo_hobj id id [] 0 demo_st) as [_ H2].
  destruct (spawn_event_drop_or_unhandled demo_hobj id id [fun _ => None] 5 demo_st)
    as [H1 _].
  split.
  - rewrite (H2 0 eq_refl); [reflexivity|].
    repeat constructor.
  - destruct (H1 eq_refl) as [-> _]. reflexivity.
Defined.

Lemma spawn_event_fires_all_matched_witness :
  apply_filters [] (Some 7) = Some 7 /\
  exists locs,
    fires (dlog (spawn_event demo_hobj id id [] 7 demo_st)) =
      fires (dlog demo_st) ++
      zip_with (fun i loc => (i, loc, 7))
        (filter (fun i => hmatch (demo_hobj i) 7 = true) (handlers demo_st)) locs /\
    length locs = length (filter (fun i => hmatch (demo_hobj i) 7 = true) (handlers demo_st)) /\
    NoDup locs.
Proof.
  split; [reflexivity|].
  exact (spawn_event_fires_all_matched demo_hobj id id [] 7 demo_st 7 eq_refl).
Defined.

(** Handler [0] is registered with [once=True], handler [1] without; both
    match every stanza. *)
Definition demo_once_hobj (i : nat) : handler_obj nat :=
  mkH nat "h" (fun _ => true) (fun s => s + 1) (Nat.eqb i 0).
Definition demo_ops : list (@dop nat) :=
  [RegisterOp 0; RegisterOp 1; DispatchOp 3; RegisterOp 0; DispatchOp 4].

Lemma once_handler_fires_at_most_once_witness :
  once (demo_once_hobj 0) = true /\
  fire_count 0 (dlog (run_dops demo_once_hobj id id [] init_dstate demo_ops)) <= 1 /\
  (fire_count 0 (dlog (run_dops demo_once_hobj id id [] init_dstate demo_ops)) = 1 ->
   0 ∉ handlers (run_dops demo_once_hobj id id [] init_dstate demo_ops)).
Proof.
  split; [reflexivity|].
  exact (once_handler_fires_at_most_once demo_once_hobj id id [] 0 demo_ops eq_refl).
Defined.
End DispatchFacts.

(* ------------------------------------------------------------------ *)
(** ** Scheduler *)

Module SchedulerFacts.
Import Scheduler.


(** Two schedules under one name: due at 10 (callback 1) and at 20
    (callback 2). *)
Definition twice_scheduled : sched :=
  schedule "n" 20 2 false (schedule "n" 10 1 false init_sched).

(** Claim C8 (counterexample): scheduling ["n"] again does not cancel the
    first timer. Its callback [1] still runs at time 10, and its
    [_execute_and_unschedule] deletes ["n"], although that entry now
    holds the second timer. Then callback [2] runs at time 20, and its
    [del self.scheduled_events["n"]] raises [KeyError]. *)
Example schedule_same_name_old_timer_fires :
  fired (run_loop 1 twice_scheduled) = [1] /\
  scheduled_events (run_loop 1 twice_scheduled) !! "n" = None /\
  fired (run_loop 2 twice_scheduled) = [1; 2] /\
  key_errors (run_loop 2 twice_scheduled) = ["n"].
Proof. vm_compute. repeat split. Qed.

Lemma earliest_skip_cancelled (l r : list timer) :
  Forall (fun t => cancelled t = true) l -> earliest (l ++ r) = earliest r.
Proof.
  induction l as [|t l IH]; intros Hl; [reflexivity|].
  inversion Hl as [|? ? Ht Hl']; subst. simpl. rewrite Ht. apply IH, Hl'.
Qed.

(** Claim C8 (code bug): [schedule] under a name that already has a
    pending non-repeating timer cancels nothing. Take a loop whose other
    handles are all cancelled, and schedule [cb1] after [s1] seconds,
    then [cb2] under the same name after [s2 >= s1] seconds. The first
    timer stays live though [scheduled_events[name]] no longer holds it.
    At the first loop turn [cb1] runs and its [_execute_and_unschedule]
    deletes [scheduled_events[name]], which held the second timer; from
    then on [cancel_schedule(name)] does nothing. At the second turn
    [cb2] runs too, and its [del self.scheduled_events[name]] raises
    [KeyError]. *)
Theorem schedule_same_name_breaks_cancel (st : sched) (name : string) (s1 s2 : Q)
    (cb1 cb2 : nat) :
  Forall (fun t => cancelled t = true) (pending st) -> (s1 <= s2)%Q ->
  let st2 := schedule name s2 cb2 false (schedule name s1 cb1 false st) in
  (exists t1, t1 ∈ pending st2 /\ cancelled t1 = false /\ tcb t1 = cb1 /\
     scheduled_events st2 !! name <> Some (tid t1)) /\
  fired (run_loop 1 st2) = fired st ++ [cb1] /\
  scheduled_events (run_loop 1 st2) !! name = None /\
  cancel_schedule name (run_loop 1 st2) = run_loop 1 st2 /\
  fired (run_loop 2 st2) = fired st ++ [cb1; cb2] /\
  key_errors (run_loop 2 st2) = key_errors st ++ [name].
Proof.
  intros Hc Hs st2.
  set (k := next_tid st).
  set (T1 := mkT k (now st + s1) name cb1 None false).
  set (T2 := mkT (k + 1) (now st + s2) name cb2 None false).
  assert (Hst2 : st2 = mkS (now st) (pending st ++ [T1; T2]) (k + 1 + 1)
                        (<[name := k + 1]> (<[name := k]> (scheduled_events st)))
                        (fired st) (key_errors st)).
  { unfold st2, schedule, call_later. simpl. rewrite <- app_assoc. reflexivity. }
  clearbody st2. subst st2.
  assert (E1 : earliest (pending st ++ [T1; T2]) = Some T1).
  { rewrite earliest_skip_cancelled by exact Hc. simpl.
    replace (Qle_bool (now st + s1) (now st + s2)) with true; [reflexivity|].
    symmetry. apply Qle_bool_iff, Qplus_le_r, Hs. }
  set (F := filter (fun u => tid u <> k) (pending st)).
  assert (HF : Forall (fun t => cancelled t = true) F).
  { rewrite Forall_forall in Hc |- *. intros x Hx.
    apply list_elem_of_filter in Hx. apply Hc. tauto. }
  assert (Hfil : filter (fun u => tid u <> tid T1) (pending st ++ [T1; T2]) = F ++ [T2]).
  { rewrite filter_app. f_equal. simpl.
    rewrite filter_cons_False by (simpl; lia).
    rewrite filter_cons_True by (simpl; lia). reflexivity. }
  assert (Hrun1 : run_loop 1 (mkS (now st) (pending st ++ [T1; T2]) (k + 1 + 1)
                        (<[name := k + 1]> (<[name := k]> (scheduled_events st)))
                        (fired st) (key_errors st)) =
                  mkS (now st + s1) (F ++ [T2]) (k + 1 + 1)
                      (delete name (<[name := k + 1]> (<[name := k]> (scheduled_events st))))
                      (fired st ++ [cb1]) (key_errors st)).
  { cbn [run_loop]. unfold loop_step. cbn [pending]. rewrite E1. rewrite Hfil.
    unfold run_timer. simpl. rewrite lookup_insert_eq. reflexivity. }
  assert (E2 : earliest (F ++ [T2]) = Some T2)
    by (rewrite earliest_skip_cancelled by exact HF; reflexivity).
  split_and!.
  - exists T1. split_and!; [simpl; set_solver|reflexivity|reflexivity|].
    simpl. rewrite lookup_insert_eq. intros [=]. lia.
  - rewrite Hrun1. reflexivity.
  - rewrite Hrun1. simpl. apply lookup_delete_eq.
  - rewrite Hrun1. unfold cancel_schedule. simpl. rewrite lookup_delete_eq. reflexivity.
  - change (run_loop 2 ?x) with (run_loop 1 (run_loop 1 x)). rewrite Hrun1. cbn [run_loop].
    unfold loop_step. cbn [pending]. rewrite E2. unfold run_timer. simpl.
    rewrite lookup_delete_eq. simpl. rewrite <- app_assoc. reflexivity.
  - change (run_loop 2 ?x) with (run_loop 1 (run_loop 1 x)). rewrite Hrun1. cbn [run_loop].
    unfold loop_step. cbn [pending]. rewrite E2. unfold run_timer. simpl.
    rewrite lookup_delete_eq. reflexivity.
Qed.




(** Claim C8 at the input of its counterexample: two non-repeating
    schedules under ["n"], due at 10 and at 20, on an idle loop. *)
Lemma schedule_same_name_breaks_cancel_witness :
  fired (run_loop 2 twice_scheduled) = [1; 2] /\
  key_errors (run_loop 2 twice_scheduled) = ["n"] /\
  cancel_schedule "n" (run_loop 1 twice_scheduled) = run_loop 1 twice_scheduled.
Proof.
  destruct (schedule_same_name_breaks_cancel init_sched "n" 10 20 1 2
              (Forall_nil_2 _) ltac:(vm_compute; discriminate))
    as (_ & _ & _ & Hc & Hf & Hk).
  split_and!; [exact Hf|exact Hk|exact Hc].
Defined.

End SchedulerFacts.

(* ------------------------------------------------------------------ *)
(** ** Custom events *)

Module EventsFacts.
Import Events EventLoop.

(** [add_event_handler] appends one entry; [del_event_handler] then
    drops every entry with that pointer under that name, the ones
    registered before included, and keeps the others in order. *)
Theorem add_then_del_event_handler (name : string) (p : nat) (th disp : bool) (m : etable) :
  event_handled name (add_event_handler name p th disp m) = event_handled name m + 1 /\
  del_event_handler name p (add_event_handler name p th disp m) =
    <[name := filter (fun h => pointer h <> p)
                (match m !! name with Some hs => hs | None => [] end)]> m.
Proof.
  unfold event_handled, del_event_handler, add_event_handler. cbv zeta.
  rewrite lookup_insert_eq, insert_insert_eq. split.
  - destruct (m !! name); rewrite ?length_app; simpl; lia.
  - rewrite filter_app, filter_cons, decide_False by (simpl; congruence).
    rewrite filter_nil, app_nil_r. reflexivity.
Qed.

(** When no handler of the event is disposable, [event] runs every
    handler once, in registration order, and leaves the table as it
    was. *)
Theorem event_runs_all_handlers (has_lock : bool) (name : string) (m : etable)
    (hs : list ehandler) :
  m !! name = Some hs ->
  Forall (fun h => disposable h = false) hs ->
  event has_lock name m = (m, map pointer hs, false).
Proof.
  intros Hm Hall. unfold event. rewrite Hm.
  rewrite ev_loop_plain by (exact Hall || lia). simpl.
  rewrite insert_id by exact Hm. reflexivity.
Qed.

(** In [XMLStream], which has no [__event_handlers_lock], the first
    disposable handler of an event is run and then [event] raises
    [AttributeError]: the handlers after it are not run, and the
    disposable handler stays registered. *)
Theorem event_disposable_raises (name : string) (m : etable)
    (pre post : list ehandler) (h : ehandler) :
  m !! name = Some (pre ++ h :: post) ->
  Forall (fun h => disposable h = false) pre -> disposable h = true ->
  event xmlstream_has_lock name m = (m, map pointer pre ++ [pointer h], true).
Proof.
  intros Hm Hall Hh. unfold event, xmlstream_has_lock. rewrite Hm.
  rewrite ev_loop_no_lock by (exact Hall || exact Hh || lia). simpl.
  rewrite insert_id by exact Hm. reflexivity.
Qed.

Definition demo_table : etable :=
  add_event_handler "session_start" 3 false false
    (add_event_handler "session_start" 2 false true
       (add_event_handler "session_start" 1 true false ∅)).

Lemma event_runs_all_handlers_witness :
  event true "e" (add_event_handler "e" 5 false false (add_event_handler "e" 4 true false ∅)) =
    (add_event_handler "e" 5 false false (add_event_handler "e" 4 true false ∅), [4; 5], false).
Proof.
  apply (event_runs_all_handlers true "e" _ [mkEH 4 true false; mkEH 5 false false]);
    [reflexivity|repeat constructor].
Defined.

Lemma event_disposable_raises_witness :
  event xmlstream_has_lock "session_start" demo_table = (demo_table, [1; 2], true).
Proof.
  apply (event_disposable_raises "session_start" demo_table [mkEH 1 true false]
           [mkEH 3 false false] (mkEH 2 false true));
    [reflexivity|repeat constructor|reflexivity].
Defined.

End EventsFacts.

(* ------------------------------------------------------------------ *)
(** ** Stanza filters *)

Module FiltersFacts.
Import Filters.

Lemma py_remove_absent x l : x ∉ l -> py_remove x l = None.
Proof.
  induction l as [|y l IH]; intros Hx; simpl; [reflexivity|].
  rewrite elem_of_cons in Hx.
  destruct (Nat.eqb_spec x y); [tauto|].
  rewrite IH by tauto. reflexivity.
Qed.

Lemma py_remove_middle x a b : x ∉ a -> py_remove x (a ++ x :: b) = Some (a ++ b).
Proof.
  induction a as [|y a IH]; intros Hx; simpl.
  - rewrite Nat.eqb_refl. reflexivity.
  - rewrite elem_of_cons in Hx.
    destruct (Nat.eqb_spec x y); [tauto|].
    rewrite IH by tauto. reflexivity.
Qed.

Lemma insert_at_spec j (h : nat) l :
  j <= length l ->
  (take j l ++ h :: drop j l) !! j = Some h /\
  delete j (take j l ++ h :: drop j l) = l.
Proof.
  intros Hj. assert (Ht : length (take j l) = j) by (rewrite length_take; lia).
  split.
  - apply list_lookup_middle. symmetry. exact Ht.
  - rewrite <- Ht at 1. rewrite delete_middle. apply take_drop.
Qed.

Lemma py_insert_shape o h l :
  py_insert o h l =
    take (Z.to_nat (if Z.ltb o 0 then Z.max 0 (Z.of_nat (length l) + o)
                    else Z.min o (Z.of_nat (length l)))) l ++
    h :: drop (Z.to_nat (if Z.ltb o 0 then Z.max 0 (Z.of_nat (length l) + o)
                         else Z.min o (Z.of_nat (length l)))) l.
Proof. reflexivity. Qed.

(** Where [add_filter] puts a new filter in the list of its mode, the
    other filters keeping their order: at the end for no [order], for
    [order = 0] (Python's [if order:] treats [0] as absent) and for an
    [order] at least the length; at position [order] for [0 < order <
    len]; at [len + order] for [-len <= order < 0] (so [-1] is before
    the last filter); at the front for [order < -len]. *)
Theorem add_filter_position (mode : string) (h : nat) (m : ftable) (l : list nat) :
  m !! mode = Some l ->
  add_filter mode h None m = inl (<[mode := l ++ [h]]> m) /\
  add_filter mode h (Some 0%Z) m = inl (<[mode := l ++ [h]]> m) /\
  (forall o : Z, (Z.of_nat (length l) <= o)%Z ->
     add_filter mode h (Some o) m = inl (<[mode := l ++ [h]]> m)) /\
  (forall o : Z, (0 < o < Z.of_nat (length l))%Z ->
     exists l', add_filter mode h (Some o) m = inl (<[mode := l']> m) /\
       l' !! Z.to_nat o = Some h /\ delete (Z.to_nat o) l' = l) /\
  (forall o : Z, (- Z.of_nat (length l) <= o < 0)%Z ->
     exists l', add_filter mode h (Some o) m = inl (<[mode := l']> m) /\
       l' !! Z.to_nat (Z.of_nat (length l) + o) = Some h /\
       delete (Z.to_nat (Z.of_nat (length l) + o)) l' = l) /\
  (forall o : Z, (o < - Z.of_nat (length l))%Z ->
     add_filter mode h (Some o) m = inl (<[mode := h :: l]> m)).
Proof.
  intros Hm. unfold add_filter. rewrite Hm. split_and!; try reflexivity.
  - intros o Ho. destruct (Z.eqb_spec o 0); [reflexivity|].
    rewrite py_insert_shape.
    destruct (Z.ltb_spec o 0); [lia|].
    rewrite Z.min_r by lia. rewrite Nat2Z.id, take_ge, drop_ge by lia.
    reflexivity.
  - intros o Ho. destruct (Z.eqb_spec o 0); [lia|].
    eexists; split; [reflexivity|]. rewrite py_insert_shape.
    destruct (Z.ltb_spec o 0); [lia|]. rewrite Z.min_l by lia.
    apply insert_at_spec. lia.
  - intros o Ho. destruct (Z.eqb_spec o 0); [lia|].
    eexists; split; [reflexivity|]. rewrite py_insert_shape.
    destruct (Z.ltb_spec o 0); [|lia]. rewrite Z.max_r by lia.
    apply insert_at_spec. lia.
  - intros o Ho. destruct (Z.eqb_spec o 0); [lia|].
    rewrite py_insert_shape.
    destruct (Z.ltb_spec o 0); [|lia]. rewrite Z.max_l by lia. simpl.
    reflexivity.
Qed.

(** Removing a filter that is not registered raises [ValueError]; a
    filter added (at any [order]) to a mode that did not hold it is
    removed again by [del_filter], which gives back the table as it was
    before. *)
Theorem add_del_filter_round_trip (mode : string) (h : nat) (order : option Z)
    (m : ftable) (l : list nat) :
  m !! mode = Some l -> h ∉ l ->
  del_filter mode h m = inr ValueError /\
  exists m', add_filter mode h order m = inl m' /\ del_filter mode h m' = inl m.
Proof.
  intros Hm Hh. split.
  - unfold del_filter. rewrite Hm, py_remove_absent by exact Hh. reflexivity.
  - assert (Hins : forall l', py_remove h l' = Some l ->
              del_filter mode h (<[mode := l']> m) = inl m).
    { intros l' Hr. unfold del_filter. rewrite lookup_insert_eq, Hr.
      rewrite insert_insert_eq, insert_id by exact Hm. reflexivity. }
    assert (Happ : py_remove h (l ++ [h]) = Some l).
    { rewrite py_remove_middle by exact Hh. rewrite app_nil_r. reflexivity. }
    unfold add_filter. rewrite Hm.
    destruct order as [o|]; [|eexists; split; [reflexivity|auto]].
    destruct (Z.eqb o 0); eexists; (split; [reflexivity|]); apply Hins; [exact Happ|].
    unfold py_insert. cbv zeta.
    set (j := Z.to_nat _).
    rewrite py_remove_middle.
    + rewrite take_drop. reflexivity.
    + intros Hin. apply Hh. exact (subseteq_take j l h Hin).
Qed.

(** Three ['in'] filters; a fourth added at [order] [1], [-1] and [0]. *)
Definition three_in : ftable := <["in" := [1; 2; 3]]> init_filters.

Lemma add_filter_position_witness :
  add_filter "in" 9 (Some 1%Z) three_in = inl (<["in" := [1; 9; 2; 3]]> three_in) /\
  add_filter "in" 9 (Some (-1)%Z) three_in = inl (<["in" := [1; 2; 9; 3]]> three_in) /\
  (exists l', add_filter "in" 9 (Some 1%Z) three_in = inl (<["in" := l']> three_in) /\
     l' !! 1 = Some 9 /\ delete 1 l' = [1; 2; 3]) /\
  (exists l', add_filter "in" 9 (Some (-1)%Z) three_in = inl (<["in" := l']> three_in) /\
     l' !! 2 = Some 9 /\ delete 2 l' = [1; 2; 3]) /\
  add_filter "in" 9 (Some 0%Z) three_in = inl (<["in" := [1; 2; 3; 9]]> three_in).
Proof.
  assert (Hm : three_in !! "in" = Some [1; 2; 3]) by reflexivity.
  destruct (add_filter_position "in" 9 three_in [1; 2; 3] Hm)
    as (_ & H0 & _ & Hpos & Hneg & _).
  split_and!; [reflexivity|reflexivity| | |exact H0].
  - exact (Hpos 1%Z ltac:(simpl; lia)).
  - exact (Hneg (-1)%Z ltac:(simpl; lia)).
Defined.

Lemma add_del_filter_round_trip_witness :
  del_filter "out" 7 (<["out" := [1; 2]]> init_filters) = inr ValueError.
Proof.
  apply (add_del_filter_round_trip "out" 7 (Some (-1)%Z) _ [1; 2]);
    [reflexivity|].
  rewrite !elem_of_cons. intros [H|[H|H]]; [lia|lia|exact (not_elem_of_nil _ H)].
Defined.

End FiltersFacts.

(* ------------------------------------------------------------------ *)
(** ** Stream ids *)

Module IdsFacts.
Import Ids.

(** Reading ["%X"] back: the position of a digit in the table. *)
Fixpoint digit_index (c : ascii) (s : string) : nat :=
  match s with
  | EmptyString => 0
  | String c' s' => if Ascii.eqb c c' then 0 else S (digit_index c s')
  end.

Definition hex_val (c : ascii) : nat := digit_index c "0123456789ABCDEF".

Definition unhex (l : list ascii) : nat :=
  fold_left (fun acc c => acc * 16 + hex_val c) l 0.

Lemma hex_val_digit d : d < 16 -> hex_val (hex_digit d) = d.
Proof.
  intros Hd.
  do 16 (destruct d as [|d]; [reflexivity|]). lia.
Qed.

Lemma unhex_snoc l c : unhex (l ++ [c]) = unhex l * 16 + hex_val c.
Proof. unfold unhex. rewrite fold_left_app. reflexivity. Qed.

Lemma unhex_hex_aux fuel n : n < fuel -> unhex (hex_aux fuel n) = n.
Proof.
  revert n. induction fuel as [|f IH]; intros n Hn; [lia|]. cbn [hex_aux].
  destruct (Nat.ltb_spec n 16).
  - unfold unhex. simpl. apply hex_val_digit. lia.
  - rewrite unhex_snoc, IH.
    + rewrite hex_val_digit by (apply Nat.mod_upper_bound; lia).
      pose proof (Nat.div_mod n 16). lia.
    + assert (n / 16 < n) by (apply Nat.div_lt; lia). lia.
Qed.

Lemma hex_inj a b : hex a = hex b -> a = b.
Proof.
  unfold hex. intros H.
  apply (f_equal String.list_ascii_of_string) in H.
  rewrite !String.list_ascii_of_string_of_list_ascii in H.
  apply (f_equal unhex) in H.
  rewrite !unhex_hex_aux in H by lia. exact H.
Qed.

Lemma append_inj_l (p x y : string) : p +:+ x = p +:+ y -> x = y.
Proof.
  induction p as [|c p IH]; simpl; [auto|].
  intros H. injection H. exact IH.
Qed.

Lemma get_id_inj p a b : get_id (mkId p a) = get_id (mkId p b) -> a = b.
Proof. unfold get_id. simpl. intros H. apply hex_inj, (append_inj_l p), H. Qed.

Lemma new_ids_shape k st :
  new_ids k st =
    (map (fun i => get_id (mkId (id_prefix st) i)) (seq (S (id_count st)) k),
     mkId (id_prefix st) (id_count st + k)).
Proof.
  revert st. induction k as [|k IH]; intros [p c]; simpl.
  - rewrite Nat.add_0_r. reflexivity.
  - rewrite IH. simpl. do 2 f_equal. lia.
Qed.

(** [new_id] never repeats itself: the ids returned by successive calls
    are pairwise distinct, and distinct from what [get_id] gave before
    the first of them. *)
Theorem new_ids_distinct (k : nat) (st : idstate) :
  NoDup (get_id st :: (new_ids k st).1).
Proof.
  rewrite new_ids_shape. simpl.
  replace (get_id st) with (get_id (mkId (id_prefix st) (id_count st)))
    by (destruct st; reflexivity).
  rewrite <- (map_cons (fun i => get_id (mkId (id_prefix st) i))).
  apply (NoDup_fmap_2 (fun i => get_id (mkId (id_prefix st) i))
           (Inj0 := fun a b => get_id_inj (id_prefix st) a b)).
  change (id_count st :: seq (S (id_count st)) k) with (seq (id_count st) (S k)).
    apply NoDup_seq.
Qed.

End IdsFacts.

(* ------------------------------------------------------------------ *)
(** ** Thread bookkeeping *)

Module ThreadsFacts.
Import Threads.

(** How far [__thread_count] is from the number of names in
    [__active_threads]. *)
Definition drift (st : tstate) : Z :=
  thread_count st - Z.of_nat (size (active_threads st)).

Lemma size_remove (X : gset string) x :
  x ∈ X -> size X = S (size (X ∖ {[x]})).
Proof.
  intros Hx. rewrite (union_difference_singleton_L x X Hx) at 1.
  rewrite size_union by set_solver. rewrite size_singleton. reflexivity.
Qed.

Lemma end_thread_inactive cur st :
  cur ∉ active_threads st ->
  thread_count (end_thread cur st) = thread_count st /\
  active_threads (end_thread cur st) = active_threads st.
Proof.
  intros Hc. unfold end_thread.
  rewrite bool_decide_eq_false_2 by exact Hc.
  destruct (Z.eqb (thread_count st) 0); split; reflexivity.
Qed.

Lemma end_thread_not_active cur st : cur ∉ active_threads (end_thread cur st).
Proof.
  unfold end_thread. case_bool_decide as Hc; simpl.
  - destruct (Z.eqb _ 0); simpl; set_solver.
  - destruct (Z.eqb _ 0); simpl; exact Hc.
Qed.

(** [_end_thread] acts on the calling thread's name only: a thread
    that is not (or no longer) in [__active_threads] changes neither
    [__thread_count] nor [__active_threads], so a second [_end_thread]
    from the same thread does not decrement the count again. *)
Theorem end_thread_idempotent (cur : string) (st : tstate) :
  (cur ∉ active_threads st ->
   thread_count (end_thread cur st) = thread_count st /\
   active_threads (end_thread cur st) = active_threads st) /\
  thread_count (end_thread cur (end_thread cur st)) = thread_count (end_thread cur st) /\
  active_threads (end_thread cur (end_thread cur st)) = active_threads (end_thread cur st).
Proof.
  split; [apply end_thread_inactive|].
  apply end_thread_inactive, end_thread_not_active.
Qed.

(** [__thread_count] minus the number of active thread names is kept by
    [_end_thread], by an untracked [_start_thread], and by a tracked one
    under a new name; a tracked [_start_thread] under a name that is
    already active raises it by one (the set absorbs the name, the count
    does not), and no later [_end_thread] takes it back. *)
Theorem thread_count_drift (cur name : string) (st : tstate) :
  drift (end_thread cur st) = drift st /\
  drift (start_thread name false st) = drift st /\
  (name ∉ active_threads st -> drift (start_thread name true st) = drift st) /\
  (name ∈ active_threads st -> drift (start_thread name true st) = drift st + 1)%Z.
Proof.
  unfold drift. split_and!.
  - unfold end_thread. case_bool_decide as Hc.
    + pose proof (size_remove _ _ Hc).
      destruct (Z.eqb _ 0); simpl; lia.
    + destruct (Z.eqb _ 0); simpl; lia.
  - reflexivity.
  - intros Hn. simpl. rewrite size_union by set_solver.
    rewrite size_singleton. lia.
  - intros Hn. simpl.
    rewrite (subseteq_union_1_L {[name]} (active_threads st)) by set_solver.
    lia.
Qed.

End ThreadsFacts.

(* ------------------------------------------------------------------ *)
(** ** Connecting and reconnecting *)

Module ConnectFacts.
Import Connect.

Section Facts.
Variable inet_aton_ok : string -> bool.

Lemma reconnect_step st :
  let st' := reconnect inet_aton_ok st in
  address st' = address st /\ c_stop st' = false /\ use_ssl st' = false /\
  force_starttls st' = Some true /\ disable_starttls st' = Some false /\
  connections st' = connections st ++ [((address st).1, (address st).2, false)].
Proof.
  unfold reconnect, connect_defaults, connect. simpl.
  destruct (address st) as [h p]. simpl. split_and!; reflexivity.
Qed.

(** After [connect(host, port, use_ssl=True, ...)] with a non-empty host
    and a non-zero port, every [reconnect()] dials the same address but
    without SSL: [reconnect] calls [connect()] with its defaults, whose
    [use_ssl=False] and [force_starttls=True], [disable_starttls=False]
    overwrite the earlier settings, while the empty host keeps the
    address. Each attempt clears [stop]. *)
Theorem reconnect_drops_ssl (host : string) (port : Z) (fs ds : option bool)
    (st : cstate) (n : nat) :
  host <> ""%string -> port <> 0%Z ->
  let st1 := connect inet_aton_ok host port (Some true) fs ds st in
  let stn := Nat.iter n (reconnect inet_aton_ok) st1 in
  connections stn = connections st ++ (host, port, true) :: repeat (host, port, false) n /\
  address stn = (host, port) /\ c_stop stn = false /\
  (0 < n -> use_ssl stn = false /\ force_starttls stn = Some true /\
            disable_starttls stn = Some false).
Proof.
  intros Hh Hp st1 stn.
  assert (Hst1 : address st1 = (host, port) /\ c_stop st1 = false /\
                 connections st1 = connections st ++ [(host, port, true)]).
  { unfold st1, connect. simpl.
    rewrite (proj2 (String.eqb_neq host "") Hh), (proj2 (Z.eqb_neq port 0) Hp).
    simpl. split_and!; reflexivity. }
  destruct Hst1 as (Ha1 & Hs1 & Hc1).
  unfold stn. clear stn. induction n as [|n IH]; simpl Nat.iter.
  - rewrite Ha1, Hs1, Hc1. simpl. split_and!; auto. lia.
  - destruct IH as (IHc & IHa & IHs & _).
    destruct (reconnect_step (Nat.iter n (reconnect inet_aton_ok) st1))
      as (Ha & Hs & Hu & Hf & Hd & Hc).
    rewrite Ha, Hs, Hu, Hf, Hd, Hc, IHc, IHa. simpl.
    split_and!; auto.
    rewrite <- app_assoc. simpl. f_equal. f_equal.
    rewrite repeat_cons. reflexivity.
Qed.

End Facts.

Definition demo_cstate : cstate :=
  mkC true ("", 5222%Z) "" false None None [].

Lemma reconnect_drops_ssl_witness :
  connections (Nat.iter 2 (reconnect (fun _ => false))
     (connect (fun _ => false) "example.org" 5223 (Some true) None None demo_cstate)) =
    [("example.org", 5223%Z, true); ("example.org", 5223%Z, false);
     ("example.org", 5223%Z, false)].
Proof.
  exact (proj1 (reconnect_drops_ssl (fun _ => false) "example.org" 5223 None None
                  demo_cstate 2 ltac:(discriminate) ltac:(discriminate))).
Defined.

End ConnectFacts.

(* ------------------------------------------------------------------ *)
(** ** Registering and removing stanza handlers *)

Module HandlerListFacts.
Import Dispatch DispatchFacts.

Section Facts.
Context {XML Stz : Type} `{Inhabited Stz}.
Variable hobj : nat -> handler_obj Stz.
Variable incoming_filter : XML -> XML.
Variable build_stanza : XML -> Stz.
Variable filters_in : list (Stz -> option Stz).

Lemma fire_all_shrinks multi l0 ms (st : dstate Stz) :
  bound (fire_all hobj multi l0 ms st) = bound st /\
  (forall x, x ∈ handlers (fire_all hobj multi l0 ms st) -> x ∈ handlers st).
Proof.
  revert st. induction ms as [|j ms IH]; intros st; [split; auto|].
  rewrite fire_all_cons. destruct (IH (fire_body hobj multi l0 j st)) as [Hb Hh].
  destruct (fire_body_fields hobj multi l0 j st) as (Eb & _ & Eh & _).
  rewrite Hb, Eb. split; [reflexivity|].
  intros x Hx. apply Hh in Hx. rewrite Eh in Hx.
  case_bool_decide; [exact (remove_first_sub hobj _ _ _ Hx)|exact Hx].
Qed.

Lemma spawn_event_shrinks xml (st : dstate Stz) :
  bound (spawn_event hobj incoming_filter build_stanza filters_in xml st) = bound st /\
  (forall x, x ∈ handlers (spawn_event hobj incoming_filter build_stanza filters_in xml st) ->
             x ∈ handlers st).
Proof.
  unfold spawn_event. simpl.
  destruct (apply_filters _ _) as [v|]; [|split; auto].
  match goal with
  | |- context [fire_all hobj ?mu ?l ?ms ?s] =>
      destruct (fire_all_shrinks mu l ms s) as [Hb Hh]
  end.
  case_bool_decide; simpl; rewrite Hb; split; auto.
Qed.

(** [register_handler] only appends a handler whose [stream] is still
    [None], and sets it; [remove_handler] does not reset it. So a
    handler that is bound to the stream but not in the handler list
    (in particular one taken off by [remove_handler]) stays out of it
    over any sequence of registrations, removals and dispatched
    stanzas: registering it again does nothing. *)
Theorem removed_handler_stays_removed (i : nat) (st : dstate Stz) (os : list (@dop XML)) :
  i ∈ bound st -> i ∉ handlers st ->
  i ∈ bound (run_dops hobj incoming_filter build_stanza filters_in st os) /\
  i ∉ handlers (run_dops hobj incoming_filter build_stanza filters_in st os).
Proof.
  unfold run_dops. revert st. induction os as [|o os IH]; intros st Hb Hn; simpl; [auto|].
  apply IH.
  - destruct o as [j|n|x]; simpl.
    + unfold register_handler. case_decide; simpl; set_solver.
    + exact Hb.
    + rewrite (proj1 (spawn_event_shrinks x st)). exact Hb.
  - destruct o as [j|n|x]; simpl.
    + unfold register_handler. case_decide as Hj; [exact Hn|]. simpl.
      rewrite elem_of_app, list_elem_of_singleton. intros [Hx| ->]; [exact (Hn Hx)|exact (Hj Hb)].
    + unfold remove_handler. simpl. intros Hx. apply Hn, (remove_by_name_sub hobj n), Hx.
    + intros Hx. apply Hn, (proj2 (spawn_event_shrinks x st)), Hx.
Qed.

End Facts.

(** Handler [0], named ["h"], is registered, removed by name, and
    registered again. *)
Definition reregister_ops : list (@dop nat) := [RemoveOp "h"; RegisterOp 0; DispatchOp 1].

Lemma removed_handler_stays_removed_witness :
  handlers (run_dops demo_once_hobj id id [] init_dstate [RegisterOp 0]) = [0] /\
  0 ∉ handlers (run_dops demo_once_hobj id id [] init_dstate (RegisterOp 0 :: reregister_ops)).
Proof.
  split; [reflexivity|].
  assert (Hb : 0 ∈ bound (run_dops demo_once_hobj id id [] init_dstate [RegisterOp 0; RemoveOp "h"]))
    by (apply (bool_decide_eq_true_1 _); vm_compute; reflexivity).
  assert (Hn : 0 ∉ handlers (run_dops demo_once_hobj id id [] init_dstate
                               [RegisterOp 0; RemoveOp "h"]))
    by (apply (bool_decide_eq_true_1 _); vm_compute; reflexivity).
  exact (proj2 (removed_handler_stays_removed demo_once_hobj id id [] 0
                  (run_dops demo_once_hobj id id [] init_dstate [RegisterOp 0; RemoveOp "h"])
                  [RegisterOp 0; DispatchOp 1] Hb Hn)).
Defined.

End HandlerListFacts.

(* ------------------------------------------------------------------ *)
(** ** Repeating schedules *)

Module RepeatFacts.
Import Scheduler.

Section Repeat.
(** The schedule under study: its name, period and callback. *)
Variable n : string.
Variable s : Q.
Variable cb : nat.

(** A pending handle that runs [cb] or is filed under [n]. *)
Definition relevant (u : timer) : Prop := tcb u = cb \/ tname u = n.

(** While the schedule runs: every live relevant handle is the one
    [scheduled_events[n]] holds, and reschedules [cb] under [n] every
    [s] seconds. *)
Definition running (st : sched) : Prop :=
  forall u, u ∈ pending st -> cancelled u = false -> relevant u ->
    tname u = n /\ tcb u = cb /\ trepeat u = Some s /\
    scheduled_events st !! n = Some (tid u).

(** Once it is cancelled: no live relevant handle, and no entry [n]. *)
Definition quiet (st : sched) : Prop :=
  (forall u, u ∈ pending st -> cancelled u = false -> ~ relevant u) /\
  scheduled_events st !! n = None.

Lemma earliest_live ts t : earliest ts = Some t -> t ∈ ts /\ cancelled t = false.
Proof.
  induction ts as [|t' ts IH]; simpl; [discriminate|].
  destruct (cancelled t') eqn:Ec.
  - intros Ht. destruct (IH Ht). split; [set_solver|assumption].
  - destruct (earliest ts) as [u|].
    + destruct (Qle_bool _ _); intros Ht; injection Ht as <-;
        [split; [set_solver|exact Ec]|destruct (IH eq_refl); split; [set_solver|assumption]].
    + intros Ht. injection Ht as <-. split; [set_solver|exact Ec].
Qed.

Lemma loop_step_cases st :
  loop_step st = st \/
  exists t, t ∈ pending st /\ cancelled t = false /\
    loop_step st = run_timer t (mkS (deadline t)
                       (filter (fun u => tid u <> tid t) (pending st))
                       (next_tid st) (scheduled_events st) (fired st) (key_errors st)).
Proof.
  unfold loop_step. destruct (earliest (pending st)) as [t|] eqn:E; [right|left; reflexivity].
  destruct (earliest_live _ _ E). exists t. auto.
Qed.

Lemma run_timer_shape t st :
  fired (run_timer t st) = fired st ++ [tcb t] /\
  (forall u, u ∈ pending (run_timer t st) ->
     u ∈ pending st \/
     (exists secs, trepeat t = Some secs /\
        u = mkT (next_tid st) (now st + secs) (tname t) (tcb t) (Some secs) false)) /\
  (forall k, k <> tname t -> scheduled_events (run_timer t st) !! k = scheduled_events st !! k) /\
  (forall secs, trepeat t = Some secs ->
     scheduled_events (run_timer t st) !! tname t = Some (next_tid st)).
Proof.
  unfold run_timer, call_later. destruct (trepeat t) as [secs|]; simpl.
  - split_and!; [reflexivity| | |].
    + intros u. rewrite elem_of_app, list_elem_of_singleton.
      intros [Hu| ->]; [left; exact Hu|right; eauto].
    + intros k Hk. rewrite lookup_insert_ne by congruence. reflexivity.
    + intros secs' [= <-]. rewrite lookup_insert_eq. reflexivity.
  - destruct (scheduled_events st !! tname t); simpl; split_and!; try reflexivity; auto.
    + intros k Hk. rewrite lookup_delete_ne by congruence. reflexivity.
    + discriminate.
    + discriminate.
Qed.

Lemma loop_step_running st : running st -> running (loop_step st).
Proof.
  intros Hr. destruct (loop_step_cases st) as [-> | (t & Ht & Hc & ->)]; [exact Hr|].
  set (st' := mkS _ _ _ _ _ _).
  destruct (run_timer_shape t st') as (_ & Hp & Hk & Hs).
  intros u Hu Hcu Hru. destruct (Hp u Hu) as [Hu'|(secs & Hsecs & ->)].
  - simpl in Hu'. apply list_elem_of_filter in Hu' as [Hne Hu'].
    destruct (Hr u Hu' Hcu Hru) as (Hn & Hcb & Hrep & Hse).
    destruct (decide (relevant t)) as [Hrt|Hrt].
    + destruct (Hr t Ht Hc Hrt) as (_ & _ & _ & Hse'). congruence.
    + rewrite Hk by (intros E; apply Hrt; right; congruence). simpl. auto.
  - simpl in Hru |- *. destruct (decide (relevant t)) as [Hrt|Hrt]; [|contradiction].
    destruct (Hr t Ht Hc Hrt) as (Hn & Hcb & Hrep & _).
    rewrite Hrep in Hsecs. injection Hsecs as <-.
    rewrite Hn in Hs |- *. split_and!; auto. apply (Hs s). exact Hrep.
Qed.

Lemma loop_step_quiet st :
  quiet st -> quiet (loop_step st) /\
  exists c, fired (loop_step st) = fired st ++ c /\ cb ∉ c.
Proof.
  intros [Hq Hn]. destruct (loop_step_cases st) as [-> | (t & Ht & Hc & ->)].
  { split; [split; assumption|]. exists []. rewrite app_nil_r. split; [reflexivity|set_solver]. }
  set (st' := mkS _ _ _ _ _ _).
  pose proof (Hq t Ht Hc) as Hrt. unfold relevant in Hrt.
  destruct (run_timer_shape t st') as (Hf & Hp & Hk & _).
  split; [split|].
  - intros u Hu Hcu. destruct (Hp u Hu) as [Hu'|(secs & _ & ->)].
    + simpl in Hu'. apply list_elem_of_filter in Hu' as [_ Hu']. exact (Hq u Hu' Hcu).
    + unfold relevant. simpl. tauto.
  - rewrite Hk by (intros E; apply Hrt; right; congruence). exact Hn.
  - exists [tcb t]. split; [exact Hf|]. rewrite list_elem_of_singleton. intros E. apply Hrt. left. congruence.
Qed.

Lemma run_loop_running k st : running st -> running (run_loop k st).
Proof.
  revert st. induction k as [|k IH]; intros st Hr; simpl; [exact Hr|].
  apply IH, loop_step_running, Hr.
Qed.

Lemma run_loop_quiet k st :
  quiet st -> quiet (run_loop k st) /\
  exists c, fired (run_loop k st) = fired st ++ c /\ cb ∉ c.
Proof.
  revert st. induction k as [|k IH]; intros st Hq; simpl.
  - split; [exact Hq|]. exists []. rewrite app_nil_r. split; [reflexivity|set_solver].
  - destruct (loop_step_quiet st Hq) as [Hq1 (c1 & Hf1 & Hc1)].
    destruct (IH _ Hq1) as [Hq2 (c2 & Hf2 & Hc2)].
    split; [exact Hq2|]. exists (c1 ++ c2). rewrite Hf2, Hf1, app_assoc.
    split; [reflexivity|]. rewrite elem_of_app. tauto.
Qed.

Lemma cancel_schedule_quiet st : running st -> quiet (cancel_schedule n st).
Proof.
  intros Hr. unfold cancel_schedule.
  destruct (scheduled_events st !! n) as [h|] eqn:E.
  - split; simpl; [|apply lookup_delete_eq].
    intros u Hu Hcu Hru. unfold cancel_handle in Hu.
    apply list_elem_of_fmap in Hu as (u0 & -> & Hu0).
    destruct (Nat.eqb_spec (tid u0) h) as [_|Hne]; [discriminate|].
    destruct (Hr u0 Hu0 Hcu Hru) as (_ & _ & _ & Hse). congruence.
  - split; [|exact E]. intros u Hu Hcu Hru.
    destruct (Hr u Hu Hcu Hru) as (_ & _ & _ & Hse). congruence.
Qed.

Lemma schedule_running st :
  (forall u, u ∈ pending st -> cancelled u = false -> ~ relevant u) ->
  running (schedule n s cb true st).
Proof.
  intros Hq u Hu Hcu Hru. unfold schedule, call_later in *. simpl in *.
  apply elem_of_app in Hu as [Hu|Hu].
  - exfalso. exact (Hq u Hu Hcu Hru).
  - apply list_elem_of_singleton in Hu. subst u. simpl.
    rewrite lookup_insert_eq. auto.
Qed.

(** [cancel_schedule(name)] stops a repeating schedule for good: each
    run of [_execute_and_reschedule] files its new handle under the same
    name, so the handle cancelled is always the live one. Starting from
    a loop with no live handle for that name or callback, after
    [schedule(name, s, cb, repeat=True)], any number of loop turns and
    [cancel_schedule(name)], the callback never runs again and the name
    stays unscheduled. *)
Theorem cancelled_repeat_never_fires (st : sched) (k m : nat) :
  (forall u, u ∈ pending st -> cancelled u = false -> tcb u <> cb /\ tname u <> n) ->
  let st1 := cancel_schedule n (run_loop k (schedule n s cb true st)) in
  exists c, fired (run_loop m st1) = fired st1 ++ c /\ (cb ∉ c) /\
    scheduled_events (run_loop m st1) !! n = None.
Proof.
  intros Hq st1.
  assert (Hq1 : quiet st1).
  { apply cancel_schedule_quiet, run_loop_running, schedule_running.
    intros u Hu Hcu [Hr|Hr]; destruct (Hq u Hu Hcu); contradiction. }
  destruct (run_loop_quiet m st1 Hq1) as [[_ Hn] (c & Hf & Hc)].
  exists c. auto.
Qed.

End Repeat.

Lemma cancelled_repeat_never_fires_witness :
  exists c, fired (run_loop 5 (cancel_schedule "Whitespace Keepalive"
                (run_loop 3 (schedule "Whitespace Keepalive" 300 7 true init_sched)))) =
            fired (cancel_schedule "Whitespace Keepalive"
                (run_loop 3 (schedule "Whitespace Keepalive" 300 7 true init_sched))) ++ c /\
    (7 ∉ c) /\
    scheduled_events (run_loop 5 (cancel_schedule "Whitespace Keepalive"
                (run_loop 3 (schedule "Whitespace Keepalive" 300 7 true init_sched))))
      !! "Whitespace Keepalive" = None.
Proof.
  apply (cancelled_repeat_never_fires "Whitespace Keepalive" 300 7 init_sched 3 5).
  intros u Hu. simpl in Hu. exfalso. exact (not_elem_of_nil u Hu).
Defined.

End RepeatFacts.

(* ------------------------------------------------------------------ *)
(** ** The send worker's writes *)

Module WorkerFacts.
Import SendWorker EventLoop.

(** The number of successful [socket.send] calls in a log. *)
Fixpoint writes (l : list weffect) : nat :=
  match l with
  | [] => 0
  | Wrote _ :: l' => S (writes l')
  | _ :: l' => writes l'
  end.

(** The sizes [ns] returned by successive [socket.send] calls, from
    [sent] bytes already written, take the write loop exactly to
    [total]: each call but the last leaves some bytes unsent. *)
Fixpoint covers (sent total : nat) (ns : list nat) : Prop :=
  match ns with
  | [] => total <= sent
  | n :: ns' => sent < total /\ covers (sent + n) total ns'
  end.

Lemma writes_app l1 l2 : writes (l1 ++ l2) = writes l1 + writes l2.
Proof.
  induction l1 as [|e l1 IH]; simpl; [reflexivity|].
  destruct e; simpl; rewrite ?IH; reflexivity.
Qed.

Section Facts.
Variable encode : string -> list Byte.byte.
Variable ssl_retry_max : nat.
Variable ssl_retry_delay : Q.
Variable auto_reconnect : bool.
Variable ev_handlers : Events.etable.

Local Abbreviation step :=
  (worker_step encode ssl_retry_max ssl_retry_delay auto_reconnect ev_handlers).
Local Abbreviation run :=
  (run_worker encode ssl_retry_max ssl_retry_delay auto_reconnect ev_handlers).

Lemma step_keeps_flags w w' :
  step w = Some w' -> stop w' = stop w /\ session_started w' = session_started w.
Proof.
  unfold worker_step, socket_error_handler, generic_handler, ssl_retry_branch.
  destruct (w_pc w); simpl; repeat case_match; intros Hw; inversion Hw; subst; simpl; auto.
Qed.

Lemma step_no_write w w' :
  stop w = true \/ session_started w = false ->
  step w = Some w' -> writes (wlog w') = writes (wlog w).
Proof.
  intros Hs.
  unfold worker_step, socket_error_handler, generic_handler, ssl_retry_branch.
  destruct (w_pc w); simpl.
  - case_match; intros Hw; inversion Hw; subst; simpl; rewrite ?writes_app; simpl; lia.
  - case_match; intros Hw; inversion Hw; subst; simpl; rewrite ?writes_app; simpl; lia.
  - repeat case_match; intros Hw; inversion Hw; subst; simpl; reflexivity.
  - destruct (Nat.ltb _ _ && negb (stop w) && session_started w) eqn:Ec.
    + exfalso. apply andb_true_iff in Ec as [Ec Hst].
      apply andb_true_iff in Ec as [_ Hns].
      destruct Hs as [Hs|Hs]; rewrite Hs in *; discriminate.
    + intros Hw. inversion Hw; subst. simpl. rewrite writes_app. simpl. lia.
  - discriminate.
Qed.

(** [_send_thread] calls [socket.send] only inside
    [while sent < total and not self.stop.is_set() and
    self.session_started_event.is_set()]: while [stop] is set or the
    session has not started, the worker writes nothing, however long it
    runs. *)
Theorem no_write_unless_session_live (fuel : nat) (w : wstate) :
  stop w = true \/ session_started w = false ->
  writes (wlog (run fuel w)) = writes (wlog w).
Proof.
  revert w. induction fuel as [|k IH]; intros w Hs; simpl; [reflexivity|].
  destruct (step w) as [w'|] eqn:Ew; [|reflexivity].
  destruct (step_keeps_flags w w' Ew) as [E1 E2].
  rewrite IH by (rewrite E1, E2; exact Hs).
  exact (step_no_write w w' Hs Ew).
Qed.

(** A short [socket.send] is followed by another with the rest, until
    the whole encoded stanza is written: with the session live, sizes
    [ns] that cover the stanza give one [socket.send] each, then
    [send_queue.task_done()] and a return to the outer loop. *)
Theorem partial_sends_complete (d : string) (sent count tries : nat) (ns : list nat)
    (rest : list send_result) (w : wstate) :
  w_pc w = Send d sent count tries -> stop w = false -> session_started w = true ->
  sock w = map SendOk ns ++ rest -> covers sent (length (encode d)) ns ->
  run (length ns + 1) w =
    mkW Outer false true (failed_send_stanza w) (send_queue w) rest
        (wlog w ++ map Wrote ns ++ [TaskDone]).
Proof.
  revert sent count w. induction ns as [|n ns IH]; intros sent count w Hpc Hst Hss Hsock Hc.
  - simpl in *. unfold worker_step. rewrite Hpc, Hst, Hss.
    replace (Nat.ltb sent (length (encode d))) with false
      by (symmetry; apply Nat.ltb_ge; exact Hc).
    destruct w; simpl in *. subst. reflexivity.
  - destruct Hc as [Hlt Hc]. simpl. unfold worker_step at 1.
    rewrite Hpc, Hst, Hss, Hsock. simpl.
    replace (Nat.ltb sent (length (encode d))) with true
      by (symmetry; apply Nat.ltb_lt; exact Hlt).
    simpl. rewrite (IH (sent + n) (S count)) by (simpl; auto).
    simpl. rewrite <- app_assoc. reflexivity.
Qed.

(** The missing [__event_handlers_lock] defeats the retention of a
    failed item: when a ['socket_error'] handler is disposable,
    [self.event('socket_error', ...)] raises [AttributeError] inside the
    [except (Socket.error, ssl.SSLError)] clause, before
    [__failed_send_stanza] is set. The outer [except Exception] then
    reports the [AttributeError] and calls [disconnect(auto_reconnect)]
    with [send_close=True], and the in-flight item is dropped. *)
Theorem disposable_socket_error_handler_drops_item (w : wstate) (d : string)
    (sent count tries : nat) (e : exn) (rest : list send_result)
    (hs : list Events.ehandler) (h : Events.ehandler) :
  w_pc w = Send d sent count tries ->
  Nat.ltb sent (length (encode d)) && negb (stop w) && session_started w = true ->
  sock w = SendErr e :: rest ->
  is_socket_error e = true -> exn_errno e <> Some EINTR ->
  ev_handlers !! "socket_error" = Some hs -> h ∈ hs -> Events.disposable h = true ->
  step w = Some (mkW Done (stop w) (session_started w) (failed_send_stanza w)
                     (send_queue w) rest
                     (wlog w ++ [SocketErrorEvent e; ExceptionHook AttributeError; EndThread;
                                 Disconnect auto_reconnect true])).
Proof.
  intros Hpc Hc Hs He Hn Hhs Hin Hh.
  assert (Hst : stop w = false).
  { destruct (stop w); [|reflexivity]. simpl in Hc.
    rewrite andb_false_r in Hc. discriminate. }
  unfold worker_step. rewrite Hpc, Hc, Hs, He.
  rewrite bool_decide_false by exact Hn.
  unfold socket_error_handler, generic_handler.
  rewrite (proj2 (event_raises_iff "socket_error" ev_handlers)) by eauto.
  unfold goto, emit, set_sock. simpl. rewrite Hst, <- !app_assoc. reflexivity.
Qed.

End Facts.

(** Every character is one byte. *)
Definition ascii_encode (s : string) : list Byte.byte := repeat Byte.x00 (String.length s).

Definition sending : wstate :=
  mkW (Send "<iq/>" 0 0 0) false true None [] [SendOk 2; SendOk 3; SendOk 9] [].

Lemma partial_sends_complete_witness :
  run_worker ascii_encode 3 1 false ∅ 3 sending =
    mkW Outer false true None [] [SendOk 9] [Wrote 2; Wrote 3; TaskDone].
Proof.
  apply (partial_sends_complete ascii_encode 3 1 false ∅ "<iq/>" 0 0 0 [2; 3] [SendOk 9]);
    try reflexivity.
  simpl. lia.
Defined.

(** A stanza is queued, but the session has not started yet. *)
Definition waiting : wstate := mkW Outer false false None [Some "<iq/>"] [SendOk 5] [].

Lemma no_write_unless_session_live_witness :
  writes (wlog (run_worker ascii_encode 3 1 false ∅ 10 waiting)) = 0.
Proof.
  exact (no_write_unless_session_live ascii_encode 3 1 false ∅ 10 waiting (or_intror eq_refl)).
Defined.

(** A disposable ['socket_error'] handler (a one-shot logger), and a
    broken pipe ([EPIPE], 32) on the first write of ["<iq/>"]. *)
Definition one_shot : Events.etable :=
  Events.add_event_handler "socket_error" 1 false true ∅.

Definition broken : wstate :=
  mkW (Send "<iq/>" 0 0 0) false true None [] [SendErr (SocketError 32)] [].

Lemma disposable_socket_error_handler_drops_item_witness :
  worker_step ascii_encode 3 1 true one_shot broken =
    Some (mkW Done false true None [] []
            [SocketErrorEvent (SocketError 32); ExceptionHook AttributeError; EndThread;
             Disconnect true true]).
Proof.
  apply (disposable_socket_error_handler_drops_item ascii_encode 3 1 true one_shot broken
           "<iq/>" 0 0 0 (SocketError 32) [] [Events.mkEH 1 false true] (Events.mkEH 1 false true));
    try reflexivity.
  - discriminate.
  - set_solver.
Defined.

End WorkerFacts.
